(** * The type provider and the global context of the Solidity compiler

    A shallow embedding of [libsolidity/ast/TypeProvider.h] and of the two
    versions of [libsolidity/analysis/GlobalContext.cpp], with the properties
    their description states about them.

    Pointers to types ([Type const*]) are modelled by [TypePointer]: the
    address of one of the static members of [TypeProvider], or the address of
    an object allocated on the heap.  Member functions that touch the mutable
    members of the provider are state-passing functions. *)

From Stdlib Require Import ZArith Lia Ascii.
From stdpp Require Import base decidable option list strings gmap numbers sorting.

Open Scope Z_scope.

(** ** Enumerations used by the factory functions *)

Inductive DataLocation := Storage | CallData | Memory.

(** [IntegerType::Modifier] and [FixedPointType::Modifier]. *)
Inductive Modifier := Unsigned | Signed.

Inductive StateMutability := Pure | View | NonPayable | Payable.

(** [MagicType::Kind], written [Magic.ABI] for [MagicType::Kind::ABI]. *)
Module Magic.
Inductive Kind := Block | Message | Transaction | ABI | MetaType.
End Magic.

(** [FunctionType::Kind], written [Kind.AddMod] for [FunctionType::Kind::AddMod]. *)
Module Kind.
Inductive Kind :=
| Internal | External | CallCode | DelegateCall | BareCall | Creation
| Send | Transfer | KECCAK256 | ECRecover | SHA256 | RIPEMD160
| Log0 | Log1 | Log2 | Log3 | Log4 | GasLeft | BlockHash | AddMod | MulMod
| Assert | Require | Revert | Selfdestruct | MetaType | Event.
End Kind.

#[global] Instance DataLocation_eq_dec : EqDecision DataLocation.
Proof. solve_decision. Defined.
#[global] Instance Modifier_eq_dec : EqDecision Modifier.
Proof. solve_decision. Defined.
#[global] Instance StateMutability_eq_dec : EqDecision StateMutability.
Proof. solve_decision. Defined.
#[global] Instance MagicKind_eq_dec : EqDecision Magic.Kind.
Proof. solve_decision. Defined.
#[global] Instance FunctionKind_eq_dec : EqDecision Kind.Kind.
Proof. solve_decision. Defined.

(** ** Pointers to types

    The first thirteen constructors are the addresses of the [static const]
    members of [TypeProvider] (for the four arrays, the address of the
    element at the given index); [heap a] is the address of an object
    created by [createAndGet] or owned by one of the maps. *)

Inductive TypePointer :=
| m_boolType
| m_inaccessibleDynamicType
| m_bytesType
| m_bytesMemoryType
| m_stringType
| m_stringMemoryType
| m_emptyTupleType
| m_payableAddressType
| m_addressType
| m_intM (i : nat)
| m_uintM (i : nat)
| m_bytesM (i : nat)
| m_magicTypes (i : nat)
| heap (a : nat).

#[global] Instance TypePointer_eq_dec : EqDecision TypePointer.
Proof. solve_decision. Defined.

(** A pointer into static storage, as opposed to the heap. *)
Definition is_static (p : TypePointer) : bool :=
  match p with
  | heap _ => false
  | m_intM i | m_uintM i | m_bytesM i => bool_decide (i < 32)%nat
  | m_magicTypes i => bool_decide (i < 4)%nat
  | _ => true
  end.

(** ** Type values

    The objects the pointers point to.  AST nodes ([ContractDefinition],
    [StructDefinition], ...) are known by their identity only, a [nat]. *)

Inductive TypeValue :=
| BoolType
| AddressType (payable : bool)
| IntegerType (bits : Z) (modifier : Modifier)
| FixedBytesType (m : Z)
| FixedPointType (m n : Z) (modifier : Modifier)
| ArrayType (location : DataLocation) (baseType : TypePointer)
    (length : option Z) (isString isPointer : bool)
| MappingType (keyType valueType : TypePointer)
| TupleType (components : list TypePointer)
| FunctionType (parameterTypes returnParameterTypes : list TypePointer)
    (parameterNames returnParameterNames : list string)
    (kind : Kind.Kind) (arbitraryParameters : bool)
    (stateMutability : StateMutability) (declaration : option nat)
    (gasSet valueSet bound : bool)
| StringLiteralType (literal : string)
| RationalNumberType (numerator denominator : Z)
    (compatibleBytesType : option TypePointer)
| ContractType (contract : nat) (isSuper : bool)
| StructType (struct : nat) (location : DataLocation)
| EnumType (enum : nat)
| ModuleType (source : nat)
| TypeType (actualType : TypePointer)
| ModifierType (modifier : nat)
| MagicType (kind : Magic.Kind) (typeArgument : option TypePointer)
| InaccessibleDynamicType.

#[global] Instance TypeValue_eq_dec : EqDecision TypeValue.
Proof. solve_decision. Defined.

(** The closed enumeration of type kinds. *)
Inductive Category :=
| CBool | CAddress | CInteger | CFixedBytes | CFixedPoint | CArray | CMapping
| CTuple | CFunction | CStringLiteral | CRationalNumber | CContract | CStruct
| CEnum | CModule | CTypeType | CModifier | CMagic | CInaccessibleDynamic.

#[global] Instance Category_eq_dec : EqDecision Category.
Proof. solve_decision. Defined.

Definition category (v : TypeValue) : Category :=
  match v with
  | BoolType => CBool
  | AddressType _ => CAddress
  | IntegerType _ _ => CInteger
  | FixedBytesType _ => CFixedBytes
  | FixedPointType _ _ _ => CFixedPoint
  | ArrayType _ _ _ _ _ => CArray
  | MappingType _ _ => CMapping
  | TupleType _ => CTuple
  | FunctionType _ _ _ _ _ _ _ _ _ _ _ => CFunction
  | StringLiteralType _ => CStringLiteral
  | RationalNumberType _ _ _ => CRationalNumber
  | ContractType _ _ => CContract
  | StructType _ _ => CStruct
  | EnumType _ => CEnum
  | ModuleType _ => CModule
  | TypeType _ => CTypeType
  | ModifierType _ => CModifier
  | MagicType _ _ => CMagic
  | InaccessibleDynamicType => CInaccessibleDynamic
  end.

(** ** Outcomes of a call

    A call returns, or throws ([solAssert] throws an [InternalCompilerError],
    [std::array::at] throws [std::out_of_range]), or fails with the structured
    error of the description, or has no defined behaviour (a dangling or null
    pointer is dereferenced). *)

Inductive Exception := InternalCompilerError | out_of_range.

Inductive InvalidTypeRequest :=
| UnknownElementaryType (name : string)
| BadIntegerWidth (bits : Z)
| BadFixedBytesLength (n : Z)
| BadFixedPointShape (m n : Z)
| BadMappingKey (kind : Category)
| InvalidLocationSuffix (suffix : string).

Inductive Outcome (A : Type) :=
| Returned (a : A)
| Threw (e : Exception)
| Failed (r : InvalidTypeRequest)
| Undefined.
Arguments Returned {A} a.
Arguments Threw {A} e.
Arguments Failed {A} r.
Arguments Undefined {A}.

#[global] Instance Exception_eq_dec : EqDecision Exception.
Proof. solve_decision. Defined.
#[global] Instance InvalidTypeRequest_eq_dec : EqDecision InvalidTypeRequest.
Proof. solve_decision. Defined.
#[global] Instance Outcome_eq_dec `{EqDecision A} : EqDecision (Outcome A).
Proof. solve_decision. Defined.

Definition returns {A} (o : Outcome A) : bool :=
  match o with Returned _ => true | _ => false end.

(** ** Arithmetic on [unsigned]

    [unsigned] is 32 bits wide; subtraction wraps around. *)

Definition UINT_MODULUS : Z := 2 ^ 32.

Definition is_unsigned (n : Z) : Prop := 0 <= n < UINT_MODULUS.

Definition unsigned_sub (a b : Z) : Z := (a - b) mod UINT_MODULUS.

(** [std::array<T, N>::at]: the element's address, or [std::out_of_range]. *)
Definition array_at (N : Z) (element : nat -> TypePointer) (i : Z) : Outcome TypePointer :=
  if bool_decide (0 <= i < N) then Returned (element (Z.to_nat i)) else Threw out_of_range.

(** Modelled from the spec: the macro [solAssert], which is not among the
    sources.  [solAssert(cond, ...)] followed by the rest of the body; an
    internal assertion that is violated is a panic, the exception
    [InternalCompilerError]. *)
Definition solAssert {A} (cond : bool) (rest : Outcome A) : Outcome A :=
  if cond then rest else Threw InternalCompilerError.

(** ** The inline factory functions of [TypeProvider.h] *)

Definition boolType : TypePointer := m_boolType.

Definition fixedBytesType (m : Z) : Outcome TypePointer :=
  array_at 32 m_bytesM (unsigned_sub m 1).

Definition byteType : Outcome TypePointer := fixedBytesType 1.

Definition bytesType : TypePointer := m_bytesType.
Definition bytesMemoryType : TypePointer := m_bytesMemoryType.
Definition stringType : TypePointer := m_stringType.
Definition stringMemoryType : TypePointer := m_stringMemoryType.

Definition payableAddressType : TypePointer := m_payableAddressType.
Definition addressType : TypePointer := m_addressType.

Definition integerType (_bits : Z) (_modifier : Modifier) : Outcome TypePointer :=
  solAssert (bool_decide (_bits mod 8 = 0))
    (if bool_decide (_modifier = Unsigned)
     then array_at 32 m_uintM (unsigned_sub (_bits / 8) 1)
     else array_at 32 m_intM (unsigned_sub (_bits / 8) 1)).

Definition emptyTupleType : TypePointer := m_emptyTupleType.
Definition errorType : TypePointer := emptyTupleType.
Definition inaccessibleDynamicType : TypePointer := m_inaccessibleDynamicType.

(** ** The static members and their initial values *)

Definition byte_pointer : TypePointer := m_bytesM 0.

(** Modelled from the spec: the initialisers of the static members, which
    are in [TypeProvider.cpp] and not among the sources.  The widths of
    [m_intM], [m_uintM] and [m_bytesM] are the ones [integerType] and
    [fixedBytesType] index them by; the four [bytes]/[string] arrays are the
    dynamic arrays of bytes in storage and in memory; [m_magicTypes] holds
    the magic types except [MetaType]. *)
Definition m_intM_init : list TypeValue :=
  (fun i => IntegerType (8 * (Z.of_nat i + 1)) Signed) <$> seq 0 32.
Definition m_uintM_init : list TypeValue :=
  (fun i => IntegerType (8 * (Z.of_nat i + 1)) Unsigned) <$> seq 0 32.
Definition m_bytesM_init : list TypeValue :=
  (fun i => FixedBytesType (Z.of_nat i + 1)) <$> seq 0 32.
Definition m_magicTypes_init : list TypeValue :=
  [MagicType Magic.Block None; MagicType Magic.Message None;
   MagicType Magic.Transaction None; MagicType Magic.ABI None].

Definition static_value (p : TypePointer) : option TypeValue :=
  match p with
  | m_boolType => Some BoolType
  | m_inaccessibleDynamicType => Some InaccessibleDynamicType
  | m_bytesType => Some (ArrayType Storage byte_pointer None false true)
  | m_bytesMemoryType => Some (ArrayType Memory byte_pointer None false true)
  | m_stringType => Some (ArrayType Storage byte_pointer None true true)
  | m_stringMemoryType => Some (ArrayType Memory byte_pointer None true true)
  | m_emptyTupleType => Some (TupleType [])
  | m_payableAddressType => Some (AddressType true)
  | m_addressType => Some (AddressType false)
  | m_intM i => m_intM_init !! i
  | m_uintM i => m_uintM_init !! i
  | m_bytesM i => m_bytesM_init !! i
  | m_magicTypes i => m_magicTypes_init !! i
  | heap _ => None
  end.

(** The index of a magic kind in [m_magicTypes]. *)
Definition magic_index (k : Magic.Kind) : Z :=
  match k with
  | Magic.Block => 0 | Magic.Message => 1 | Magic.Transaction => 2
  | Magic.ABI => 3 | Magic.MetaType => 4
  end.

(** Modelled from the spec: the static member that holds a value, if there
    is one; the types without parameters are not created, they are the
    static members. *)
Definition static_pointer (v : TypeValue) : option TypePointer :=
  match v with
  | BoolType => Some m_boolType
  | InaccessibleDynamicType => Some m_inaccessibleDynamicType
  | AddressType true => Some m_payableAddressType
  | AddressType false => Some m_addressType
  | TupleType [] => Some m_emptyTupleType
  | IntegerType bits modifier =>
      if bool_decide (bits mod 8 = 0 /\ 8 <= bits <= 256)
      then Some ((if bool_decide (modifier = Unsigned) then m_uintM else m_intM)
                   (Z.to_nat (bits / 8 - 1)))
      else None
  | FixedBytesType m =>
      if bool_decide (1 <= m <= 32) then Some (m_bytesM (Z.to_nat (m - 1))) else None
  | ArrayType location base None isString true =>
      if bool_decide (base = byte_pointer) then
        match location, isString with
        | Storage, false => Some m_bytesType
        | Memory, false => Some m_bytesMemoryType
        | Storage, true => Some m_stringType
        | Memory, true => Some m_stringMemoryType
        | CallData, _ => None
        end
      else None
  | MagicType k None =>
      if bool_decide (k = Magic.MetaType) then None
      else Some (m_magicTypes (Z.to_nat (magic_index k)))
  | _ => None
  end.

(** All the static members. *)
Definition atoms : list TypePointer :=
  [m_boolType; m_inaccessibleDynamicType; m_bytesType; m_bytesMemoryType;
   m_stringType; m_stringMemoryType; m_emptyTupleType; m_payableAddressType;
   m_addressType]
  ++ (m_intM <$> seq 0 32) ++ (m_uintM <$> seq 0 32)
  ++ (m_bytesM <$> seq 0 32) ++ (m_magicTypes <$> seq 0 4).

(** ** The mutable members of the provider

    A [std::unique_ptr<T>] is the address of the object it owns; the objects
    themselves are in [objects], and [next] is the next address the allocator
    hands out. *)

Record TypeProvider := mkTypeProvider {
  m_ufixedMxN : gmap (Z * Z) nat;
  m_fixedMxN : gmap (Z * Z) nat;
  m_stringLiteralTypes : gmap string nat;
  m_generalTypes : list nat;
  objects : gmap nat TypeValue;
  next : nat
}.

(** The provider as its constructor leaves it. *)
Definition TypeProvider_init : TypeProvider :=
  mkTypeProvider ∅ ∅ ∅ [] ∅ 0.

(** [*p]. *)
Definition deref (s : TypeProvider) (p : TypePointer) : option TypeValue :=
  match p with
  | heap a => objects s !! a
  | _ => static_value p
  end.

(** ** State and failure

    A member function takes the state and gives an outcome and the state it
    leaves; whatever does not return ends the sequence. *)

Definition M (S A : Type) : Type := S -> Outcome A * S.

Definition ret {S A} (a : A) : M S A := fun s => (Returned a, s).

Definition bind {S A B} (c : M S A) (k : A -> M S B) : M S B :=
  fun s =>
    match c s with
    | (Returned a, s') => k a s'
    | (Threw e, s') => (Threw e, s')
    | (Failed r, s') => (Failed r, s')
    | (Undefined, s') => (Undefined, s')
    end.

#[global] Instance M_ret {S} : MRet (M S) := fun A a => ret a.
#[global] Instance M_bind {S} : MBind (M S) := fun A B k c => bind c k.

(** A call that does not touch the state. *)
Definition pure {S A} (o : Outcome A) : M S A := fun s => (o, s).

Fixpoint mapM {S A B} (f : A -> M S B) (l : list A) : M S (list B) :=
  match l with
  | [] => ret []
  | a :: l' => b ← f a; bs ← mapM f l'; ret (b :: bs)
  end.

(** [*p] inside a member function; a dangling pointer has no defined
    behaviour. *)
Definition load (p : TypePointer) : M TypeProvider TypeValue :=
  fun s => match deref s p with
           | Some v => (Returned v, s)
           | None => (Undefined, s)
           end.

(** ** Interning

    The bodies of the factory functions that create types are in
    [TypeProvider.cpp], which is not among the sources; they are modelled from
    the description of the interner. *)

(** Modelled from the spec: the normalised numerator and denominator of a
    rational number, the fraction in lowest terms with a positive
    denominator. *)
Definition normalize (n d : Z) : Z * Z :=
  if bool_decide (d = 0) then (n, d)
  else (Z.sgn d * n / Z.gcd n d, Z.abs d / Z.gcd n d).

(** Modelled from the spec: the canonicalisation key of a type value.  The
    names of parameters and return values of a function type are stored but
    are not part of the key; a rational number is keyed by its normalised
    numerator and denominator; every other kind is keyed by all its
    attributes. *)
Definition key (v : TypeValue) : TypeValue :=
  match v with
  | FunctionType ps rs _ _ k arbitrary mutability decl gasSet valueSet bound =>
      FunctionType ps rs [] [] k arbitrary mutability decl gasSet valueSet bound
  | RationalNumberType n d c =>
      RationalNumberType (normalize n d).1 (normalize n d).2 c
  | _ => v
  end.

(** Modelled from the spec: the lookup in the cache of the types that have
    no map of their own, the first object of [m_generalTypes] with the given
    key. *)
Fixpoint find_general (objs : gmap nat TypeValue) (K : TypeValue) (l : list nat)
  : option nat :=
  match l with
  | [] => None
  | a :: l' =>
      if bool_decide (key <$> objs !! a = Some K) then Some a
      else find_general objs K l'
  end.

(** Modelled from the spec: the cache lookup.  Fixed point types are looked
    up in [m_ufixedMxN] and [m_fixedMxN] by their two numbers, string literal
    types in [m_stringLiteralTypes] by their bytes, all other types in
    [m_generalTypes] by their key. *)
Definition cached (s : TypeProvider) (K : TypeValue) : option nat :=
  match K with
  | FixedPointType m n Unsigned => m_ufixedMxN s !! (m, n)
  | FixedPointType m n Signed => m_fixedMxN s !! (m, n)
  | StringLiteralType literal => m_stringLiteralTypes s !! literal
  | _ => find_general (objects s) K (m_generalTypes s)
  end.

(** Modelled from the spec: [createAndGet<T>(args...)], declared in the
    header, creates the object and stores its owner behind the others of
    [m_generalTypes]. *)
Definition createAndGet (v : TypeValue) : M TypeProvider TypePointer :=
  fun s =>
    (Returned (heap (next s)),
     mkTypeProvider (m_ufixedMxN s) (m_fixedMxN s) (m_stringLiteralTypes s)
       (m_generalTypes s ++ [next s]) (<[next s := v]> (objects s)) (S (next s))).

(** Modelled from the spec: a value that is not cached is created, and its
    owner is stored in the map of its kind, or by [createAndGet]. *)
Definition create (v : TypeValue) : M TypeProvider TypePointer :=
  fun s =>
    match key v with
    | FixedPointType m n Unsigned =>
        (Returned (heap (next s)),
         mkTypeProvider (<[(m, n) := next s]> (m_ufixedMxN s)) (m_fixedMxN s)
           (m_stringLiteralTypes s) (m_generalTypes s)
           (<[next s := v]> (objects s)) (S (next s)))
    | FixedPointType m n Signed =>
        (Returned (heap (next s)),
         mkTypeProvider (m_ufixedMxN s) (<[(m, n) := next s]> (m_fixedMxN s))
           (m_stringLiteralTypes s) (m_generalTypes s)
           (<[next s := v]> (objects s)) (S (next s)))
    | StringLiteralType literal =>
        (Returned (heap (next s)),
         mkTypeProvider (m_ufixedMxN s) (m_fixedMxN s)
           (<[literal := next s]> (m_stringLiteralTypes s)) (m_generalTypes s)
           (<[next s := v]> (objects s)) (S (next s)))
    | _ => createAndGet v s
    end.

(** Modelled from the spec: [intern(descriptor)].  A value held by a static
    member is that member; a value whose key is cached is the cached object;
    any other value is created and cached. *)
Definition intern (v : TypeValue) : M TypeProvider TypePointer :=
  fun s =>
    match static_pointer (key v) with
    | Some p => (Returned p, s)
    | None =>
        match cached s (key v) with
        | Some a => (Returned (heap a), s)
        | None => create v s
        end
    end.

(** Modelled from the spec: [reset()] drops every cache and every stored
    value; the static members are not touched.  The header documents it as
    resetting the provider "to initial state, wiping all mutable types": the
    objects it destroys are freed, their storage is the allocator's to hand
    out again, and the provider is as its constructor leaves it. *)
Definition reset : M TypeProvider () :=
  fun _ => (Returned (), TypeProvider_init).

(** The allocator invariant: every address in use is below [next]. *)
Record wf (s : TypeProvider) : Prop := mk_wf {
  wf_ufixed : forall k a, m_ufixedMxN s !! k = Some a -> (a < next s)%nat;
  wf_fixed : forall k a, m_fixedMxN s !! k = Some a -> (a < next s)%nat;
  wf_literals : forall k a, m_stringLiteralTypes s !! k = Some a -> (a < next s)%nat;
  wf_general : forall a, a ∈ m_generalTypes s -> (a < next s)%nat;
  wf_objects : forall a v, objects s !! a = Some v -> (a < next s)%nat
}.

(** [s'] has everything [s] has: the same objects at the same addresses and
    the same cached keys. *)
Record extends (s s' : TypeProvider) : Prop := mk_extends {
  ext_objects : forall a v, objects s !! a = Some v -> objects s' !! a = Some v;
  ext_cached : forall K a, cached s K = Some a -> cached s' K = Some a;
  ext_next : (next s <= next s')%nat
}.

(** ** The factory functions declared in [TypeProvider.h]

    Overloads are told apart by a suffix. *)

(** Modelled from the spec: [arrayType(location, isString)], the dynamic
    array of bytes, [bytes] or [string]. *)
Definition arrayType_bytes (_location : DataLocation) (_isString : bool)
  : M TypeProvider TypePointer :=
  intern (ArrayType _location byte_pointer None _isString true).

(** Modelled from the spec: [arrayType(location, baseType)], the dynamically
    sized array. *)
Definition arrayType_dynamic (_location : DataLocation) (_baseType : TypePointer)
  : M TypeProvider TypePointer :=
  intern (ArrayType _location _baseType None false true).

(** Modelled from the spec: [arrayType(location, baseType, length)], the
    array of fixed size. *)
Definition arrayType_fixed (_location : DataLocation) (_baseType : TypePointer)
  (_length : Z) : M TypeProvider TypePointer :=
  intern (ArrayType _location _baseType (Some _length) false true).

(** Modelled from the spec: [fixedPoint(m, n, signed?)] with
    [m + n ∈ 8·{1..32}] and [1 ≤ n ≤ 80]; any other shape fails with
    [BadFixedPointShape]. *)
Definition fixedPointType (m n : Z) (_modifier : Modifier)
  : M TypeProvider TypePointer :=
  if bool_decide ((m + n) mod 8 = 0 /\ 8 <= m + n <= 256 /\ 1 <= n <= 80)
  then intern (FixedPointType m n _modifier)
  else pure (Failed (BadFixedPointShape m n)).

(** Modelled from the spec: [stringLiteral(bytes)]. *)
Definition stringLiteralType (literal : string) : M TypeProvider TypePointer :=
  intern (StringLiteralType literal).

(** Modelled from the spec: [tuple(members)]. *)
Definition tupleType (members : list TypePointer) : M TypeProvider TypePointer :=
  intern (TupleType members).

(** Modelled from the spec: the class hierarchy of [Types.h], which is not
    among the sources.  The reference types are the arrays, the structs and
    the string literals. *)
Definition isReferenceType (v : TypeValue) : bool :=
  match v with
  | ArrayType _ _ _ _ _ | StructType _ _ | StringLiteralType _ => true
  | _ => false
  end.

(** Modelled from the spec: [withLocation(refType, location, isPointer)]
    interns the variant of an array, struct or string literal at the given
    location.  Applied to another type, against the promise of its caller, it
    trips an internal assertion. *)
Definition withLocation (_type : TypePointer) (_location : DataLocation)
  (_isPointer : bool) : M TypeProvider TypePointer :=
  v ← load _type;
  match v with
  | ArrayType _ base len isString _ =>
      intern (ArrayType _location base len isString _isPointer)
  | StructType decl _ => intern (StructType decl _location)
  | StringLiteralType literal => intern (StringLiteralType literal)
  | _ => pure (Threw InternalCompilerError)
  end.

(** [withLocationIfReference], as in the header: the [dynamic_cast] looks at
    the object [_type] points to. *)
Definition withLocationIfReference (_location : DataLocation) (_type : TypePointer)
  : M TypeProvider TypePointer :=
  v ← load _type;
  if isReferenceType v then withLocation _type _location false
  else mret _type.

(** Modelled from the spec: [rationalNumber(value, compatible bytes type)]. *)
Definition rationalNumberType (numerator denominator : Z)
  (_compatibleBytesType : option TypePointer) : M TypeProvider TypePointer :=
  intern (RationalNumberType numerator denominator _compatibleBytesType).

(** Modelled from the spec: [contract(decl, isSuper?)]. *)
Definition contractType (_contract : nat) (_isSuper : bool)
  : M TypeProvider TypePointer :=
  intern (ContractType _contract _isSuper).

(** Modelled from the spec: [enum(decl)]. *)
Definition enumType (_enum : nat) : M TypeProvider TypePointer :=
  intern (EnumType _enum).

(** Modelled from the spec: [module(source-unit)]. *)
Definition moduleType (_source : nat) : M TypeProvider TypePointer :=
  intern (ModuleType _source).

(** Modelled from the spec: [typeType(of)]. *)
Definition typeType (_actualType : TypePointer) : M TypeProvider TypePointer :=
  intern (TypeType _actualType).

(** Modelled from the spec: [struct(decl, location)]. *)
Definition structType (_struct : nat) (_location : DataLocation)
  : M TypeProvider TypePointer :=
  intern (StructType _struct _location).

(** Modelled from the spec: [modifier(decl)]. *)
Definition modifierType (_modifierDef : nat) : M TypeProvider TypePointer :=
  intern (ModifierType _modifierDef).

(** Modelled from the spec: [magic(kind)] is the static member of that kind;
    [m_magicTypes] has no element for [MetaType]. *)
Definition magicType (_kind : Magic.Kind) : Outcome TypePointer :=
  array_at 4 m_magicTypes (magic_index _kind).

(** Modelled from the spec: [metaType(of)]. *)
Definition metaType (_type : TypePointer) : M TypeProvider TypePointer :=
  intern (MagicType Magic.MetaType (Some _type)).

(** Modelled from the spec: a reference type or a type of dynamic size is
    not a valid key of a mapping. *)
Definition isDynamicallySized (v : TypeValue) : bool :=
  match v with
  | ArrayType _ _ None _ _ | InaccessibleDynamicType => true
  | _ => false
  end.

(** Modelled from the spec: [mapping(key, value)] fails with [BadMappingKey]
    on a key that is not valid.  A valid key is not a reference type and has
    no location that would have to be normalised to storage. *)
Definition mappingType (_keyType _valueType : TypePointer)
  : M TypeProvider TypePointer :=
  k ← load _keyType;
  if isReferenceType k || isDynamicallySized k
  then pure (Failed (BadMappingKey (category k)))
  else intern (MappingType _keyType _valueType).

(** ** Elementary type names *)

(** The atoms of the grammar of elementary type names. *)
Inductive ElementaryTypeNameToken :=
| TBool | TAddress | TAddressPayable
| TInt | TIntM (m : Z) | TUInt | TUIntM (m : Z)
| TBytes | TBytesM (m : Z)
| TFixed | TUFixed | TFixedMxN (m n : Z) | TUFixedMxN (m n : Z)
| TString.

(** Modelled from the spec: [fromElementaryTypeName(token)].  A width that
    is missing is 256, and 128x18 for a fixed point type; the widths of
    integers are the multiples of 8 in [8,256], those of fixed bytes are in
    [1,32]. *)
Definition fromElementaryTypeName_token (_type : ElementaryTypeNameToken)
  : M TypeProvider TypePointer :=
  match _type with
  | TBool => mret boolType
  | TAddress => mret addressType
  | TAddressPayable => mret payableAddressType
  | TInt => pure (integerType 256 Signed)
  | TUInt => pure (integerType 256 Unsigned)
  | TIntM m =>
      if bool_decide (m mod 8 = 0 /\ 8 <= m <= 256)
      then pure (integerType m Signed) else pure (Failed (BadIntegerWidth m))
  | TUIntM m =>
      if bool_decide (m mod 8 = 0 /\ 8 <= m <= 256)
      then pure (integerType m Unsigned) else pure (Failed (BadIntegerWidth m))
  | TBytes => mret bytesType
  | TBytesM m =>
      if bool_decide (1 <= m <= 32)
      then pure (fixedBytesType m) else pure (Failed (BadFixedBytesLength m))
  | TFixed => fixedPointType 128 18 Signed
  | TUFixed => fixedPointType 128 18 Unsigned
  | TFixedMxN m n => fixedPointType m n Signed
  | TUFixedMxN m n => fixedPointType m n Unsigned
  | TString => mret stringType
  end.

(** The words of a name, separated by single spaces. *)
Fixpoint split_words (s : string) : list string :=
  match s with
  | EmptyString => [EmptyString]
  | String c s' =>
      if bool_decide (c = " "%char) then EmptyString :: split_words s'
      else match split_words s' with
           | w :: ws => String c w :: ws
           | [] => [String c EmptyString]
           end
  end.

(** What is left of [s] behind the prefix [p]. *)
Fixpoint strip_prefix (p s : string) : option string :=
  match p, s with
  | EmptyString, _ => Some s
  | String a p', String b s' =>
      if bool_decide (a = b) then strip_prefix p' s' else None
  | String _ _, EmptyString => None
  end.

Definition digit (c : ascii) : option Z :=
  let n := Z.of_nat (nat_of_ascii c) in
  if bool_decide (48 <= n <= 57) then Some (n - 48) else None.

Fixpoint digits_from (acc : Z) (s : string) : option Z :=
  match s with
  | EmptyString => Some acc
  | String c s' =>
      match digit c with
      | Some d => digits_from (10 * acc + d) s'
      | None => None
      end
  end.

(** A non-empty sequence of decimal digits. *)
Definition parse_digits (s : string) : option Z :=
  match s with
  | EmptyString => None
  | _ => digits_from 0 s
  end.

(** The parts of [s] before and behind its first ['x']. *)
Fixpoint split_x (s : string) : option (string * string) :=
  match s with
  | EmptyString => None
  | String c s' =>
      if bool_decide (c = "x"%char) then Some (EmptyString, s')
      else match split_x s' with
           | Some (a, b) => Some (String c a, b)
           | None => None
           end
  end.

Definition parse_MxN (s : string) : option (Z * Z) :=
  match split_x s with
  | Some (a, b) =>
      match parse_digits a, parse_digits b with
      | Some m, Some n => Some (m, n)
      | _, _ => None
      end
  | None => None
  end.

(** The atom a word stands for: [Atom] of the grammar, without the second
    word of ['address payable']. *)
Definition parse_atom (w : string) : option ElementaryTypeNameToken :=
  if bool_decide (w = "bool") then Some TBool
  else if bool_decide (w = "address") then Some TAddress
  else if bool_decide (w = "string") then Some TString
  else if bool_decide (w = "bytes") then Some TBytes
  else if bool_decide (w = "int") then Some TInt
  else if bool_decide (w = "uint") then Some TUInt
  else if bool_decide (w = "fixed") then Some TFixed
  else if bool_decide (w = "ufixed") then Some TUFixed
  else match strip_prefix "uint" w with
  | Some d => TUIntM <$> parse_digits d
  | None =>
  match strip_prefix "int" w with
  | Some d => TIntM <$> parse_digits d
  | None =>
  match strip_prefix "bytes" w with
  | Some d => TBytesM <$> parse_digits d
  | None =>
  match strip_prefix "ufixed" w with
  | Some d => (fun mn => TUFixedMxN mn.1 mn.2) <$> parse_MxN d
  | None =>
  match strip_prefix "fixed" w with
  | Some d => (fun mn => TFixedMxN mn.1 mn.2) <$> parse_MxN d
  | None => None
  end end end end end.

(** [Suffix] of the grammar, without its space. *)
Definition parse_location (w : string) : option DataLocation :=
  if bool_decide (w = "storage") then Some Storage
  else if bool_decide (w = "memory") then Some Memory
  else if bool_decide (w = "calldata") then Some CallData
  else None.

(** The atom and the location suffix of a name, or the error. *)
Definition parse_name (_name : string)
  : InvalidTypeRequest + ElementaryTypeNameToken * option string :=
  match split_words _name with
  | [w] =>
      match parse_atom w with
      | Some t => inr (t, None)
      | None => inl (UnknownElementaryType _name)
      end
  | [w; w2] =>
      if bool_decide (w = "address" /\ w2 = "payable")
      then inr (TAddressPayable, None)
      else match parse_atom w with
           | Some t => inr (t, Some w2)
           | None => inl (UnknownElementaryType _name)
           end
  | [w; w2; w3] =>
      if bool_decide (w = "address" /\ w2 = "payable")
      then inr (TAddressPayable, Some w3)
      else inl (UnknownElementaryType _name)
  | _ => inl (UnknownElementaryType _name)
  end.

(** Modelled from the spec: [fromElementaryTypeName(name)], a name of the
    grammar with an optional suffix [" storage"], [" calldata"] or
    [" memory"], storage if there is none.  The location is given to the
    reference types, [bytes] and [string]. *)
Definition fromElementaryTypeName (_name : string) : M TypeProvider TypePointer :=
  match parse_name _name with
  | inl e => pure (Failed e)
  | inr (token, suffix) =>
      match match suffix with
            | None => Some Storage
            | Some w => parse_location w
            end with
      | None => pure (Failed (InvalidLocationSuffix (default "" suffix)))
      | Some location =>
          t ← fromElementaryTypeName_token token;
          v ← load t;
          if isReferenceType v then withLocation t location true
          else mret t
      end
  end.

(** ** Function types *)

(** What the AST exposes of a [FunctionDefinition], [VariableDeclaration],
    [EventDefinition] or [FunctionTypeName]: its identity and the components
    of its signature. *)
Record Callable := mkCallable {
  identity : nat;
  parameters : list (string * TypePointer);
  returnParameters : list (string * TypePointer);
  mutability : StateMutability;
  isExternal : bool
}.

(** Modelled from the spec: the type of a function definition, internal or
    external, owned by the definition. *)
Definition functionType_FunctionDefinition (_function : Callable)
  (_isInternal : bool) : M TypeProvider TypePointer :=
  intern (FunctionType (parameters _function).*2 (returnParameters _function).*2
            (parameters _function).*1 (returnParameters _function).*1
            (if _isInternal then Kind.Internal else Kind.External)
            false (mutability _function) (Some (identity _function))
            false false false).

(** Modelled from the spec: the type of the accessor of a state variable, an
    external view function owned by the variable. *)
Definition functionType_VariableDeclaration (_varDecl : Callable)
  : M TypeProvider TypePointer :=
  intern (FunctionType (parameters _varDecl).*2 (returnParameters _varDecl).*2
            (parameters _varDecl).*1 (returnParameters _varDecl).*1
            Kind.External false View (Some (identity _varDecl))
            false false false).

(** Modelled from the spec: the function type of an event, owned by the
    event. *)
Definition functionType_EventDefinition (_event : Callable)
  : M TypeProvider TypePointer :=
  intern (FunctionType (parameters _event).*2 [] (parameters _event).*1 []
            Kind.Event false NonPayable (Some (identity _event))
            false false false).

(** Modelled from the spec: the type a function type name stands for; no
    declaration owns it. *)
Definition functionType_FunctionTypeName (_typeName : Callable)
  : M TypeProvider TypePointer :=
  intern (FunctionType (parameters _typeName).*2 (returnParameters _typeName).*2
            (parameters _typeName).*1 (returnParameters _typeName).*1
            (if isExternal _typeName then Kind.External else Kind.Internal)
            false (mutability _typeName) None false false false).

(** Modelled from the spec: the function type given by the names of the
    types of its parameters and return values, each an elementary type
    name. *)
Definition functionType_strings (_parameterTypes _returnParameterTypes : list string)
  (_kind : Kind.Kind) (_arbitraryParameters : bool)
  (_stateMutability : StateMutability) : M TypeProvider TypePointer :=
  ps ← mapM fromElementaryTypeName _parameterTypes;
  rs ← mapM fromElementaryTypeName _returnParameterTypes;
  intern (FunctionType ps rs [] [] _kind _arbitraryParameters _stateMutability
            None false false false).

(** Modelled from the spec: the function type given by all its
    attributes. *)
Definition functionType_custom (_parameterTypes _returnParameterTypes : list TypePointer)
  (_parameterNames _returnParameterNames : list string)
  (_kind : Kind.Kind) (_arbitraryParameters : bool)
  (_stateMutability : StateMutability) (_declaration : option nat)
  (_gasSet _valueSet _bound : bool) : M TypeProvider TypePointer :=
  intern (FunctionType _parameterTypes _returnParameterTypes
            _parameterNames _returnParameterNames _kind _arbitraryParameters
            _stateMutability _declaration _gasSet _valueSet _bound).

(** ** The factory functions as one family *)

Inductive FactoryCall :=
| call_fromElementaryTypeName_token (_type : ElementaryTypeNameToken)
| call_fromElementaryTypeName (_name : string)
| call_boolType
| call_byteType
| call_fixedBytesType (m : Z)
| call_bytesType
| call_bytesMemoryType
| call_stringType
| call_stringMemoryType
| call_arrayType_bytes (_location : DataLocation) (_isString : bool)
| call_arrayType_dynamic (_location : DataLocation) (_baseType : TypePointer)
| call_arrayType_fixed (_location : DataLocation) (_baseType : TypePointer) (_length : Z)
| call_payableAddressType
| call_addressType
| call_integerType (_bits : Z) (_modifier : Modifier)
| call_fixedPointType (m n : Z) (_modifier : Modifier)
| call_stringLiteralType (literal : string)
| call_tupleType (members : list TypePointer)
| call_emptyTupleType
| call_errorType
| call_withLocation (_type : TypePointer) (_location : DataLocation) (_isPointer : bool)
| call_withLocationIfReference (_location : DataLocation) (_type : TypePointer)
| call_functionType_FunctionDefinition (_function : Callable) (_isInternal : bool)
| call_functionType_VariableDeclaration (_varDecl : Callable)
| call_functionType_EventDefinition (_event : Callable)
| call_functionType_FunctionTypeName (_typeName : Callable)
| call_functionType_strings (_parameterTypes _returnParameterTypes : list string)
    (_kind : Kind.Kind) (_arbitraryParameters : bool) (_stateMutability : StateMutability)
| call_functionType_custom (_parameterTypes _returnParameterTypes : list TypePointer)
    (_parameterNames _returnParameterNames : list string)
    (_kind : Kind.Kind) (_arbitraryParameters : bool)
    (_stateMutability : StateMutability) (_declaration : option nat)
    (_gasSet _valueSet _bound : bool)
| call_rationalNumberType (numerator denominator : Z)
    (_compatibleBytesType : option TypePointer)
| call_contractType (_contract : nat) (_isSuper : bool)
| call_inaccessibleDynamicType
| call_enumType (_enum : nat)
| call_moduleType (_source : nat)
| call_typeType (_actualType : TypePointer)
| call_structType (_struct : nat) (_location : DataLocation)
| call_modifierType (_modifierDef : nat)
| call_magicType (_kind : Magic.Kind)
| call_metaType (_type : TypePointer)
| call_mappingType (_keyType _valueType : TypePointer).

Definition call (f : FactoryCall) : M TypeProvider TypePointer :=
  match f with
  | call_fromElementaryTypeName_token t => fromElementaryTypeName_token t
  | call_fromElementaryTypeName name => fromElementaryTypeName name
  | call_boolType => mret boolType
  | call_byteType => pure byteType
  | call_fixedBytesType m => pure (fixedBytesType m)
  | call_bytesType => mret bytesType
  | call_bytesMemoryType => mret bytesMemoryType
  | call_stringType => mret stringType
  | call_stringMemoryType => mret stringMemoryType
  | call_arrayType_bytes l b => arrayType_bytes l b
  | call_arrayType_dynamic l t => arrayType_dynamic l t
  | call_arrayType_fixed l t n => arrayType_fixed l t n
  | call_payableAddressType => mret payableAddressType
  | call_addressType => mret addressType
  | call_integerType bits modifier => pure (integerType bits modifier)
  | call_fixedPointType m n modifier => fixedPointType m n modifier
  | call_stringLiteralType literal => stringLiteralType literal
  | call_tupleType members => tupleType members
  | call_emptyTupleType => mret emptyTupleType
  | call_errorType => mret errorType
  | call_withLocation t l p => withLocation t l p
  | call_withLocationIfReference l t => withLocationIfReference l t
  | call_functionType_FunctionDefinition f i => functionType_FunctionDefinition f i
  | call_functionType_VariableDeclaration v => functionType_VariableDeclaration v
  | call_functionType_EventDefinition e => functionType_EventDefinition e
  | call_functionType_FunctionTypeName t => functionType_FunctionTypeName t
  | call_functionType_strings ps rs k a m => functionType_strings ps rs k a m
  | call_functionType_custom ps rs pn rn k a m d g v b =>
      functionType_custom ps rs pn rn k a m d g v b
  | call_rationalNumberType n d c => rationalNumberType n d c
  | call_contractType c s => contractType c s
  | call_inaccessibleDynamicType => mret inaccessibleDynamicType
  | call_enumType e => enumType e
  | call_moduleType m => moduleType m
  | call_typeType t => typeType t
  | call_structType d l => structType d l
  | call_modifierType m => modifierType m
  | call_magicType k => pure (magicType k)
  | call_metaType t => metaType t
  | call_mappingType k v => mappingType k v
  end.

(** ** The global context

    The declarations are objects of their own, created by [make_shared];
    a [shared_ptr] or a pointer to a declaration is its address, [None] for
    the null pointer. *)

Record MagicVariableDeclaration := mkMagicVariableDeclaration {
  name : string;
  type : TypePointer
}.

#[global] Instance MagicVariableDeclaration_eq_dec : EqDecision MagicVariableDeclaration.
Proof. solve_decision. Defined.

(** The provider of the process and the declarations that exist. *)
Record World := mkWorld {
  _provider : TypeProvider;
  declarations_heap : gmap nat MagicVariableDeclaration;
  next_declaration : nat
}.

Definition World_init : World := mkWorld TypeProvider_init ∅ 0.

(** [make_shared<MagicVariableDeclaration>(_name, _type)]. *)
Definition make_shared (_name : string) (_type : TypePointer) : M World nat :=
  fun w =>
    (Returned (next_declaration w),
     mkWorld (_provider w)
       (<[next_declaration w := mkMagicVariableDeclaration _name _type]>
          (declarations_heap w))
       (S (next_declaration w))).

(** A member function of the provider, run on the provider of the process. *)
Definition on_provider {A} (c : M TypeProvider A) : M World A :=
  fun w =>
    let '(o, s) := c (_provider w) in
    (o, mkWorld s (declarations_heap w) (next_declaration w)).

(** The members of [GlobalContext] as the member functions use them
    ([GlobalContext.h] is not among the sources): the list of the magic
    variables, the current contract, which is null until it is set, and the
    two maps from contracts to the [shared_ptr]s of their [this] and [super]
    declarations; a [std::map] holds a null pointer for a key that was only
    looked up. *)
Record GlobalContext := mkGlobalContext {
  m_magicVariables : list nat;
  m_currentContract : option nat;
  m_thisPointer : gmap (option nat) (option nat);
  m_superPointer : gmap (option nat) (option nat)
}.

(** [m[k]] of a [std::map]: the value at [k], which is created null if
    there is none. *)
Definition index (m : gmap (option nat) (option nat)) (k : option nat)
  : option nat * gmap (option nat) (option nat) :=
  match m !! k with
  | Some v => (v, m)
  | None => (None, <[k := None]> m)
  end.

(** [*m_currentContract]. *)
Definition deref_contract {S} (c : option nat) : M S nat :=
  match c with
  | Some c => mret c
  | None => pure Undefined
  end.

(** The initialiser list of [constructMagicVariables]: its elements are
    evaluated from left to right, the type of each before its declaration. *)
Definition initializer_list (l : list (string * M World TypePointer))
  : M World (list nat) :=
  mapM (fun e => t ← e.2; make_shared e.1 t) l.

(** [libsolidity/analysis/GlobalContext.cpp], which calls the static member
    functions of [TypeProvider]. *)
Module GlobalContextStatic.

Module TypeProvider.
Definition magicType (_kind : Magic.Kind) : M World TypePointer :=
    on_provider (pure (magicType _kind)).
Definition functionType (_parameterTypes _returnParameterTypes : list string)
    (_kind : Kind.Kind) (_arbitraryParameters : bool)
    (_stateMutability : StateMutability) : M World TypePointer :=
    on_provider (functionType_strings _parameterTypes _returnParameterTypes
                   _kind _arbitraryParameters _stateMutability).
Definition integerType (_bits : Z) (_modifier : Modifier) : M World TypePointer :=
    on_provider (pure (integerType _bits _modifier)).
Definition contractType (_contract : nat) (_isSuper : bool) : M World TypePointer :=
    on_provider (contractType _contract _isSuper).
End TypeProvider.

Definition constructMagicVariables : M World (list nat) :=
  initializer_list [
    ("abi", TypeProvider.magicType Magic.ABI);
    ("addmod", TypeProvider.functionType ["uint256"; "uint256"; "uint256"] ["uint256"] Kind.AddMod false Pure);
    ("assert", TypeProvider.functionType ["bool"] [] Kind.Assert false Pure);
    ("block", TypeProvider.magicType Magic.Block);
    ("blockhash", TypeProvider.functionType ["uint256"] ["bytes32"] Kind.BlockHash false View);
    ("ecrecover", TypeProvider.functionType ["bytes32"; "uint8"; "bytes32"; "bytes32"] ["address"] Kind.ECRecover false Pure);
    ("gasleft", TypeProvider.functionType [] ["uint256"] Kind.GasLeft false View);
    ("keccak256", TypeProvider.functionType ["bytes memory"] ["bytes32"] Kind.KECCAK256 false Pure);
    ("log0", TypeProvider.functionType ["bytes32"] [] Kind.Log0 false NonPayable);
    ("log1", TypeProvider.functionType ["bytes32"; "bytes32"] [] Kind.Log1 false NonPayable);
    ("log2", TypeProvider.functionType ["bytes32"; "bytes32"; "bytes32"] [] Kind.Log2 false NonPayable);
    ("log3", TypeProvider.functionType ["bytes32"; "bytes32"; "bytes32"; "bytes32"] [] Kind.Log3 false NonPayable);
    ("log4", TypeProvider.functionType ["bytes32"; "bytes32"; "bytes32"; "bytes32"; "bytes32"] [] Kind.Log4 false NonPayable);
    ("msg", TypeProvider.magicType Magic.Message);
    ("mulmod", TypeProvider.functionType ["uint256"; "uint256"; "uint256"] ["uint256"] Kind.MulMod false Pure);
    ("now", TypeProvider.integerType 256 Unsigned);
    ("require", TypeProvider.functionType ["bool"] [] Kind.Require false Pure);
    ("require", TypeProvider.functionType ["bool"; "string memory"] [] Kind.Require false Pure);
    ("revert", TypeProvider.functionType [] [] Kind.Revert false Pure);
    ("revert", TypeProvider.functionType ["string memory"] [] Kind.Revert false Pure);
    ("ripemd160", TypeProvider.functionType ["bytes memory"] ["bytes20"] Kind.RIPEMD160 false Pure);
    ("selfdestruct", TypeProvider.functionType ["address payable"] [] Kind.Selfdestruct false NonPayable);
    ("sha256", TypeProvider.functionType ["bytes memory"] ["bytes32"] Kind.SHA256 false Pure);
    ("sha3", TypeProvider.functionType ["bytes memory"] ["bytes32"] Kind.KECCAK256 false Pure);
    ("suicide", TypeProvider.functionType ["address payable"] [] Kind.Selfdestruct false NonPayable);
    ("tx", TypeProvider.magicType Magic.Transaction);
    ("type", TypeProvider.functionType ["address"] [] Kind.MetaType false Pure)
  ].

(** [GlobalContext::GlobalContext()]. *)
Definition new : M World GlobalContext :=
  variables ← constructMagicVariables;
  mret (mkGlobalContext variables None ∅ ∅).

Definition setCurrentContract (_contract : nat) (g : GlobalContext) : GlobalContext :=
  mkGlobalContext (m_magicVariables g) (Some _contract)
    (m_thisPointer g) (m_superPointer g).

Definition declarations (g : GlobalContext) : list nat :=
  foldl (fun declarations variable => declarations ++ [variable]) []
    (m_magicVariables g).

Definition currentThis (g : GlobalContext) : M World (option nat * GlobalContext) :=
  let '(p, m1) := index (m_thisPointer g) (m_currentContract g) in
  m2 ← match p with
       | Some _ => mret m1
       | None =>
           c ← deref_contract (m_currentContract g);
           t ← TypeProvider.contractType c false;
           d ← make_shared "this" t;
           mret (<[m_currentContract g := Some d]> (index m1 (m_currentContract g)).2)
       end;
  let '(r, m3) := index m2 (m_currentContract g) in
  mret (r, mkGlobalContext (m_magicVariables g) (m_currentContract g)
             m3 (m_superPointer g)).

Definition currentSuper (g : GlobalContext) : M World (option nat * GlobalContext) :=
  let '(p, m1) := index (m_superPointer g) (m_currentContract g) in
  m2 ← match p with
       | Some _ => mret m1
       | None =>
           c ← deref_contract (m_currentContract g);
           t ← TypeProvider.contractType c true;
           d ← make_shared "super" t;
           mret (<[m_currentContract g := Some d]> (index m1 (m_currentContract g)).2)
       end;
  let '(r, m3) := index m2 (m_currentContract g) in
  mret (r, mkGlobalContext (m_magicVariables g) (m_currentContract g)
             (m_thisPointer g) m3).

End GlobalContextStatic.

(** A reference to a provider; the only provider is the static [_provider]
    of [TypeProvider::get()]. *)
Inductive TypeProviderRef := provider_ref.

(** The other version of [GlobalContext.cpp], which calls the member
    functions of the instance [TypeProvider::get()]. *)
Module GlobalContextInstance.

Module TypeProvider.
Definition get : M World TypeProviderRef := mret provider_ref.
Definition magicType (this : TypeProviderRef) (_kind : Magic.Kind)
  : M World TypePointer :=
  on_provider (pure (magicType _kind)).
Definition functionType (this : TypeProviderRef)
  (_parameterTypes _returnParameterTypes : list string)
  (_kind : Kind.Kind) (_arbitraryParameters : bool)
  (_stateMutability : StateMutability) : M World TypePointer :=
  on_provider (functionType_strings _parameterTypes _returnParameterTypes
                 _kind _arbitraryParameters _stateMutability).
Definition integerType (this : TypeProviderRef) (_bits : Z) (_modifier : Modifier)
  : M World TypePointer :=
  on_provider (pure (integerType _bits _modifier)).
Definition contractType (this : TypeProviderRef) (_contract : nat) (_isSuper : bool)
  : M World TypePointer :=
  on_provider (contractType _contract _isSuper).
End TypeProvider.

Definition constructMagicVariables : M World (list nat) :=
  typeProvider ← TypeProvider.get;
  initializer_list [
    ("abi", TypeProvider.magicType typeProvider Magic.ABI);
    ("addmod", TypeProvider.functionType typeProvider ["uint256"; "uint256"; "uint256"] ["uint256"] Kind.AddMod false Pure);
    ("assert", TypeProvider.functionType typeProvider ["bool"] [] Kind.Assert false Pure);
    ("block", TypeProvider.magicType typeProvider Magic.Block);
    ("blockhash", TypeProvider.functionType typeProvider ["uint256"] ["bytes32"] Kind.BlockHash false View);
    ("ecrecover", TypeProvider.functionType typeProvider ["bytes32"; "uint8"; "bytes32"; "bytes32"] ["address"] Kind.ECRecover false Pure);
    ("gasleft", TypeProvider.functionType typeProvider [] ["uint256"] Kind.GasLeft false View);
    ("keccak256", TypeProvider.functionType typeProvider ["bytes memory"] ["bytes32"] Kind.KECCAK256 false Pure);
    ("log0", TypeProvider.functionType typeProvider ["bytes32"] [] Kind.Log0 false NonPayable);
    ("log1", TypeProvider.functionType typeProvider ["bytes32"; "bytes32"] [] Kind.Log1 false NonPayable);
    ("log2", TypeProvider.functionType typeProvider ["bytes32"; "bytes32"; "bytes32"] [] Kind.Log2 false NonPayable);
    ("log3", TypeProvider.functionType typeProvider ["bytes32"; "bytes32"; "bytes32"; "bytes32"] [] Kind.Log3 false NonPayable);
    ("log4", TypeProvider.functionType typeProvider ["bytes32"; "bytes32"; "bytes32"; "bytes32"; "bytes32"] [] Kind.Log4 false NonPayable);
    ("msg", TypeProvider.magicType typeProvider Magic.Message);
    ("mulmod", TypeProvider.functionType typeProvider ["uint256"; "uint256"; "uint256"] ["uint256"] Kind.MulMod false Pure);
    ("now", TypeProvider.integerType typeProvider 256 Unsigned);
    ("require", TypeProvider.functionType typeProvider ["bool"] [] Kind.Require false Pure);
    ("require", TypeProvider.functionType typeProvider ["bool"; "string memory"] [] Kind.Require false Pure);
    ("revert", TypeProvider.functionType typeProvider [] [] Kind.Revert false Pure);
    ("revert", TypeProvider.functionType typeProvider ["string memory"] [] Kind.Revert false Pure);
    ("ripemd160", TypeProvider.functionType typeProvider ["bytes memory"] ["bytes20"] Kind.RIPEMD160 false Pure);
    ("selfdestruct", TypeProvider.functionType typeProvider ["address payable"] [] Kind.Selfdestruct false NonPayable);
    ("sha256", TypeProvider.functionType typeProvider ["bytes memory"] ["bytes32"] Kind.SHA256 false Pure);
    ("sha3", TypeProvider.functionType typeProvider ["bytes memory"] ["bytes32"] Kind.KECCAK256 false Pure);
    ("suicide", TypeProvider.functionType typeProvider ["address payable"] [] Kind.Selfdestruct false NonPayable);
    ("tx", TypeProvider.magicType typeProvider Magic.Transaction);
    ("type", TypeProvider.functionType typeProvider ["address"] [] Kind.MetaType false Pure)
  ].

(** [GlobalContext::GlobalContext()]. *)
Definition new : M World GlobalContext :=
  variables ← constructMagicVariables;
  mret (mkGlobalContext variables None ∅ ∅).

Definition setCurrentContract (_contract : nat) (g : GlobalContext) : GlobalContext :=
  mkGlobalContext (m_magicVariables g) (Some _contract)
    (m_thisPointer g) (m_superPointer g).

Definition declarations (g : GlobalContext) : list nat :=
  foldl (fun declarations variable => declarations ++ [variable]) []
    (m_magicVariables g).

Definition currentThis (g : GlobalContext) : M World (option nat * GlobalContext) :=
  let '(p, m1) := index (m_thisPointer g) (m_currentContract g) in
  m2 ← match p with
       | Some _ => mret m1
       | None =>
           c ← deref_contract (m_currentContract g);
           typeProvider ← TypeProvider.get;
           t ← TypeProvider.contractType typeProvider c false;
           d ← make_shared "this" t;
           mret (<[m_currentContract g := Some d]> (index m1 (m_currentContract g)).2)
       end;
  let '(r, m3) := index m2 (m_currentContract g) in
  mret (r, mkGlobalContext (m_magicVariables g) (m_currentContract g)
             m3 (m_superPointer g)).

Definition currentSuper (g : GlobalContext) : M World (option nat * GlobalContext) :=
  let '(p, m1) := index (m_superPointer g) (m_currentContract g) in
  m2 ← match p with
       | Some _ => mret m1
       | None =>
           c ← deref_contract (m_currentContract g);
           typeProvider ← TypeProvider.get;
           t ← TypeProvider.contractType typeProvider c true;
           d ← make_shared "super" t;
           mret (<[m_currentContract g := Some d]> (index m1 (m_currentContract g)).2)
       end;
  let '(r, m3) := index m2 (m_currentContract g) in
  mret (r, mkGlobalContext (m_magicVariables g) (m_currentContract g)
             (m_thisPointer g) m3).

End GlobalContextInstance.

(** The declarations a list of pointers points to. *)
Definition declarations_at (w : World) (l : list nat)
  : list (option MagicVariableDeclaration) :=
  (fun d => declarations_heap w !! d) <$> l.

(** ** The table of built-ins of the description *)

(** A bound type as the table writes it: a magic namespace, [uint256], or a
    function given by the names of the types of its parameters and return
    values and by its mutability, and by its kind where the table names
    it. *)
Inductive BoundType :=
| BMagic (k : Magic.Kind)
| BUint256
| BFunction (params returnParams : list string) (mutability : StateMutability)
    (kind : option Kind.Kind).

#[global] Instance BoundType_eq_dec : EqDecision BoundType.
Proof. solve_decision. Defined.

(** The rows of the table, in the order of the table. *)
Definition builtins_table : list (string * BoundType) := [
  ("abi", BMagic Magic.ABI);
  ("block", BMagic Magic.Block);
  ("msg", BMagic Magic.Message);
  ("tx", BMagic Magic.Transaction);
  ("now", BUint256);
  ("addmod", BFunction ["uint256"; "uint256"; "uint256"] ["uint256"] Pure None);
  ("mulmod", BFunction ["uint256"; "uint256"; "uint256"] ["uint256"] Pure None);
  ("assert", BFunction ["bool"] [] Pure None);
  ("require", BFunction ["bool"] [] Pure None);
  ("require", BFunction ["bool"; "string memory"] [] Pure None);
  ("revert", BFunction [] [] Pure None);
  ("revert", BFunction ["string memory"] [] Pure None);
  ("blockhash", BFunction ["uint256"] ["bytes32"] View None);
  ("gasleft", BFunction [] ["uint256"] View None);
  ("keccak256", BFunction ["bytes memory"] ["bytes32"] Pure None);
  ("sha3", BFunction ["bytes memory"] ["bytes32"] Pure None);
  ("sha256", BFunction ["bytes memory"] ["bytes32"] Pure None);
  ("ripemd160", BFunction ["bytes memory"] ["bytes20"] Pure None);
  ("ecrecover", BFunction ["bytes32"; "uint8"; "bytes32"; "bytes32"] ["address"] Pure None);
  ("selfdestruct", BFunction ["address payable"] [] NonPayable None);
  ("suicide", BFunction ["address payable"] [] NonPayable None);
  ("log0", BFunction ["bytes32"] [] NonPayable None);
  ("log1", BFunction ["bytes32"; "bytes32"] [] NonPayable None);
  ("log2", BFunction ["bytes32"; "bytes32"; "bytes32"] [] NonPayable None);
  ("log3", BFunction ["bytes32"; "bytes32"; "bytes32"; "bytes32"] [] NonPayable None);
  ("log4", BFunction ["bytes32"; "bytes32"; "bytes32"; "bytes32"; "bytes32"] [] NonPayable None);
  ("type", BFunction ["address"] [] Pure (Some Kind.MetaType))
].

(** The pointers the names of a row stand for, if they all are names of
    types that exist without being created. *)
Definition resolve (s : TypeProvider) (names : list string) : option (list TypePointer) :=
  match mapM fromElementaryTypeName names s with
  | (Returned l, _) => Some l
  | _ => None
  end.

(** The type a pointer points to is the bound type of a row. *)
Definition is_bound_type (s : TypeProvider) (b : BoundType) (t : TypePointer) : bool :=
  match b, deref s t with
  | BMagic k, Some (MagicType k' None) => bool_decide (k = k')
  | BUint256, Some (IntegerType 256 Unsigned) => true
  | BFunction ps rs m k,
    Some (FunctionType ps' rs' _ _ k' false m' None false false false) =>
      bool_decide (resolve s ps = Some ps' /\ resolve s rs = Some rs' /\ m = m'
                   /\ (k = None \/ k = Some k'))
  | _, _ => false
  end.

(** A declaration is a row of the table. *)
Definition is_row (w : World) (row : string * BoundType)
  (d : option MagicVariableDeclaration) : Prop :=
  match d with
  | Some d => name d = row.1 /\ is_bound_type (_provider w) row.2 (type d) = true
  | None => False
  end.

(** ** Predicates on computations *)

(** A computation settles: run once from a well-formed state, it leaves a
    well-formed state that has everything the first one had, and run again
    from there, or from any state that has everything that one has, it gives
    the same outcome and changes nothing. *)
Definition settles {A} (c : M TypeProvider A) : Prop :=
  forall s o s1, wf s -> c s = (o, s1) ->
    wf s1 /\ extends s s1 /\
    (o <> Undefined -> forall s2, extends s1 s2 -> c s2 = (o, s2)).

(** A computation that returns from every well-formed state. *)
Definition total {A} (c : M TypeProvider A) : Prop :=
  forall s, wf s -> exists a s1, c s = (Returned a, s1).

(** A computation on the world that is a call of a member function of the
    provider which settles and always returns. *)
Definition provider_call (C : M World TypePointer) : Prop :=
  exists c, settles c /\ total c /\ C = on_provider c.

(** The invariant of the world: the provider is well formed and every
    declaration is below the next address. *)
Record World_wf (w : World) : Prop := mk_World_wf {
  Wwf_provider : wf (_provider w);
  Wwf_declarations :
    forall d D, declarations_heap w !! d = Some D -> (d < next_declaration w)%nat
}.

(** ** Sequences of calls on a global context

    What a user of a [GlobalContext] does with it, call after call: set the
    current contract, ask for [this] or [super], and, in between, use the
    provider or reset it. *)

Inductive GlobalContextCall :=
| CallSetCurrentContract (_contract : nat)
| CallCurrentThis
| CallCurrentSuper
| CallFactory (f : FactoryCall)
| CallReset.

(** One call; the pointer [currentThis] and [currentSuper] return is
    dropped, and so is the outcome of a call of a factory function, whose
    exception the caller catches. *)
Definition run_call (k : GlobalContextCall) (g : GlobalContext)
  : M World GlobalContext :=
  match k with
  | CallSetCurrentContract c => mret (GlobalContextStatic.setCurrentContract c g)
  | CallCurrentThis => r ← GlobalContextStatic.currentThis g; mret r.2
  | CallCurrentSuper => r ← GlobalContextStatic.currentSuper g; mret r.2
  | CallFactory f => fun w => (Returned g, (on_provider (call f) w).2)
  | CallReset => fun w => (Returned g, (on_provider reset w).2)
  end.

Fixpoint run_calls (ks : list GlobalContextCall) (g : GlobalContext)
  : M World GlobalContext :=
  match ks with
  | [] => mret g
  | k :: ks' => g' ← run_call k g; run_calls ks' g'
  end.

(** What holds of a global context and the world it lives in, whatever is
    called: every declaration is below the next address; the magic variables
    exist and none is named [this] or [super]; a pointer memoized for
    [this] is kept for a contract, points to a declaration named [this] and
    is kept for that contract only, and likewise for [super]. *)
Record GlobalContext_inv (g : GlobalContext) (w : World) : Prop :=
  mk_GlobalContext_inv {
  inv_below :
    forall d D, declarations_heap w !! d = Some D -> (d < next_declaration w)%nat;
  inv_variables :
    forall d, d ∈ m_magicVariables g ->
      exists D, declarations_heap w !! d = Some D /\
                name D <> "this" /\ name D <> "super";
  inv_this :
    forall k d, m_thisPointer g !! k = Some (Some d) ->
      exists c t, k = Some c /\
        declarations_heap w !! d = Some (mkMagicVariableDeclaration "this" t);
  inv_super :
    forall k d, m_superPointer g !! k = Some (Some d) ->
      exists c t, k = Some c /\
        declarations_heap w !! d = Some (mkMagicVariableDeclaration "super" t);
  inv_this_inj :
    forall k k' d, m_thisPointer g !! k = Some (Some d) ->
      m_thisPointer g !! k' = Some (Some d) -> k = k';
  inv_super_inj :
    forall k k' d, m_superPointer g !! k = Some (Some d) ->
      m_superPointer g !! k' = Some (Some d) -> k = k'
}.

(** ** [libdevcore/ArrayUtil.h]

    The templates compute on types at compile time; a type is a value of
    [CppType], of which only what the templates ask is known: what
    [std::decay_t] makes of it, whether it is a [std::reference_wrapper<T>],
    and the [std::common_type] of a pack, if there is one. *)

Module ArrayUtil.

(** [negation<B>::value]. *)
Definition negation (B : bool) : bool := negb B.

(** [conjunction<B...>::value]: [true_type] for the empty pack, [B1] for a
    pack of one, and for a longer pack [conjunction<Bn...>] if [B1::value]
    holds and [B1] if not. *)
Fixpoint conjunction (Bs : list bool) : bool :=
  match Bs with
  | [] => true
  | B1 :: Bn =>
      match Bn with
      | [] => B1
      | _ :: _ => if B1 then conjunction Bn else B1
      end
  end.

Section Types.

Variable CppType : Type.
Variable decay_t : CppType -> CppType.
(** [Some T] for the type [std::reference_wrapper<T>]. *)
Variable as_reference_wrapper : CppType -> option CppType.
Variable common_type : list CppType -> option CppType.

(** [is_ref_wrapper<T>::value]: the primary template is [false_type], the
    specialisation for [std::reference_wrapper<T>] is [true_type]. *)
Definition is_ref_wrapper (T : CppType) : bool :=
  match as_reference_wrapper T with
  | Some _ => true
  | None => false
  end.

(** [not_ref_wrapper<T>::value]. *)
Definition not_ref_wrapper (T : CppType) : bool :=
  negation (is_ref_wrapper (decay_t T)).

(** [return_type_helper<D, Types...>::type], with [None] as [D] for [void];
    there is no type where the [static_assert] fails or the pack has no
    common type. *)
Definition return_type_helper (D : option CppType) (Types : list CppType)
  : option CppType :=
  match D with
  | Some d => Some d
  | None =>
      if conjunction (not_ref_wrapper <$> Types) then common_type Types
      else None
  end.

(** [return_type<D, Types...>]: the element type and the size of the
    [std::array]. *)
Definition return_type (D : option CppType) (Types : list CppType)
  : option (CppType * nat) :=
  (fun T => (T, length Types)) <$> return_type_helper D Types.

End Types.

End ArrayUtil.

(** * Properties *)

Lemma unsigned_sub_small a : 1 <= a < UINT_MODULUS -> unsigned_sub a 1 = a - 1.
Proof. intros H. unfold unsigned_sub. apply Z.mod_small. unfold UINT_MODULUS in *. lia. Qed.

Lemma unsigned_sub_zero : unsigned_sub 0 1 = UINT_MODULUS - 1.
Proof. reflexivity. Qed.

Lemma array_at_unsigned_sub N el a :
  0 <= a < UINT_MODULUS -> 0 < N < UINT_MODULUS ->
  array_at N el (unsigned_sub a 1) =
  if bool_decide (1 <= a <= N) then Returned (el (Z.to_nat (a - 1))) else Threw out_of_range.
Proof.
  intros Ha HN. unfold array_at.
  destruct (decide (a = 0)) as [->|Hne].
  - rewrite unsigned_sub_zero. unfold UINT_MODULUS in *.
    rewrite bool_decide_eq_false_2 by lia. rewrite bool_decide_eq_false_2 by lia. done.
  - rewrite unsigned_sub_small by lia.
    destruct (decide (1 <= a <= N)).
    + rewrite !bool_decide_eq_true_2 by lia. done.
    + rewrite !bool_decide_eq_false_2 by lia. done.
Qed.

Lemma extends_refl s : extends s s.
Proof. by constructor. Qed.

Lemma extends_trans s1 s2 s3 : extends s1 s2 -> extends s2 s3 -> extends s1 s3.
Proof.
  intros [A1 B1 C1] [A2 B2 C2]. constructor; eauto. lia.
Qed.

Lemma deref_extends s s' p v : extends s s' -> deref s p = Some v -> deref s' p = Some v.
Proof. intros [A _ _]. destruct p; simpl; eauto. Qed.


Lemma find_general_key objs K l a :
  find_general objs K l = Some a -> key <$> objs !! a = Some K.
Proof.
  induction l as [|b l IH]; simpl; [done|].
  case_bool_decide; [by intros [= ->]|auto].
Qed.

Lemma find_general_insert objs K l (n : nat) v :
  (forall b, b ∈ l -> (b < n)%nat) ->
  find_general (<[n:=v]> objs) K l = find_general objs K l.
Proof.
  induction l as [|b l IH]; intros Hl; simpl; [done|].
  rewrite lookup_insert_ne.
  2:{ specialize (Hl b ltac:(by left)). lia. }
  rewrite IH; [done|]. intros b' Hb'. apply Hl. by right.
Qed.

Lemma find_general_app_Some objs K l l' a :
  find_general objs K l = Some a -> find_general objs K (l ++ l') = Some a.
Proof.
  induction l as [|b l IH]; simpl; [done|].
  case_bool_decide; auto.
Qed.

Lemma find_general_app_None objs K l l' :
  find_general objs K l = None -> find_general objs K (l ++ l') = find_general objs K l'.
Proof.
  induction l as [|b l IH]; simpl; [done|].
  case_bool_decide; [done|auto].
Qed.


Ltac wf_tac H1 H2 H3 H4 H5 :=
  repeat match goal with
  | H : <[?k:=_]> _ !! ?k' = Some _ |- _ =>
      destruct (decide (k = k')) as [?|?];
      [subst; rewrite lookup_insert_eq in H; simplify_eq
      |rewrite lookup_insert_ne in H by done]
  | H : _ ∈ _ ++ _ |- _ => apply elem_of_app in H as [H|H]
  | H : _ ∈ [_] |- _ => apply list_elem_of_singleton in H; subst
  end;
  try lia;
  match goal with
  | H : _ !! _ = Some _ |- _ =>
      first [specialize (H1 _ _ H)|specialize (H2 _ _ H)
            |specialize (H3 _ _ H)|specialize (H5 _ _ H)]; lia
  | H : _ ∈ _ |- _ => specialize (H4 _ H); lia
  end.

Lemma create_wf v s : wf s -> wf (create v s).2.
Proof.
  intros [H1 H2 H3 H4 H5].
  unfold create, createAndGet.
  destruct (key v) as [| | | |m n []| | | | | | | | | | | | | |];
    constructor; simpl; intros; wf_tac H1 H2 H3 H4 H5.
Qed.

Lemma find_general_insert_wf s K v :
  wf s -> find_general (<[next s:=v]> (objects s)) K (m_generalTypes s)
          = find_general (objects s) K (m_generalTypes s).
Proof. intros Hwf. apply find_general_insert. apply Hwf. Qed.

Lemma create_returns v s : (create v s).1 = Returned (heap (next s)).
Proof. unfold create, createAndGet. by destruct (key v) as [| | | |? ? []| | | | | | | | | | | | | |]. Qed.

Lemma create_next v s : next (create v s).2 = S (next s).
Proof. unfold create, createAndGet. by destruct (key v) as [| | | |? ? []| | | | | | | | | | | | | |]. Qed.

Lemma create_objects v s : objects (create v s).2 = <[next s := v]> (objects s).
Proof. unfold create, createAndGet. by destruct (key v) as [| | | |? ? []| | | | | | | | | | | | | |]. Qed.

Lemma create_cached v s :
  wf s -> cached s (key v) = None -> cached (create v s).2 (key v) = Some (next s).
Proof.
  intros Hwf Hnone. unfold create, createAndGet.
  destruct (key v) as [| | | |m n []| | | | | | | | | | | | | |] eqn:E; simpl in *;
    try (by rewrite lookup_insert_eq);
    (rewrite find_general_app_None; [|by rewrite find_general_insert_wf];
     simpl; rewrite lookup_insert_eq; simpl; rewrite E; by rewrite bool_decide_eq_true_2).
Qed.

Lemma create_extends v s :
  wf s -> cached s (key v) = None -> extends s (create v s).2.
Proof.
  intros Hwf Hnone. constructor.
  - intros a w Ha. rewrite create_objects. rewrite lookup_insert_ne; [done|].
    apply (wf_objects _ Hwf) in Ha. lia.
  - intros K a HK. unfold create, createAndGet.
    destruct (key v) as [| | | |m n []| | | | | | | | | | | | | |] eqn:E; simpl in *;
    destruct K as [| | | |m' n' []| | | | | | | | | | | | | |]; simpl in *;
      try done;
      try (by rewrite find_general_insert_wf);
      try (apply find_general_app_Some; by rewrite find_general_insert_wf).
    + destruct (decide ((m, n) = (m', n'))) as [[= <- <-]|]; [congruence|by rewrite lookup_insert_ne].
    + destruct (decide ((m, n) = (m', n'))) as [[= <- <-]|]; [congruence|by rewrite lookup_insert_ne].
    + destruct (decide (literal = literal0)) as [<-|]; [congruence|by rewrite lookup_insert_ne].
  - rewrite create_next. lia.
Qed.

Lemma intern_settles v : settles (intern v).
Proof.
  intros s o s1 Hwf. unfold intern.
  destruct (static_pointer (key v)) as [p|] eqn:Hs.
  - intros [= <- <-]. split; [done|]. split; [apply extends_refl|].
    intros _ s2 _. done.
  - destruct (cached s (key v)) as [a|] eqn:Hc.
    + intros [= <- <-]. split; [done|]. split; [apply extends_refl|].
      intros _ s2 He. by rewrite (ext_cached _ _ He _ _ Hc).
    + intros Hcr.
      assert (o = Returned (heap (next s)) /\ s1 = (create v s).2) as [-> ->].
      { pose proof (create_returns v s). destruct (create v s); simpl in *. by simplify_eq. }
      split; [by apply create_wf|]. split; [by apply create_extends|].
      intros _ s2 He.
      by rewrite (ext_cached _ _ He _ _ (create_cached v s Hwf Hc)).
Qed.

Lemma ret_settles {A} (a : A) : settles (mret a).
Proof.
  intros s o s1 Hwf [= <- <-]. split; [done|]. split; [apply extends_refl|]. done.
Qed.

Lemma pure_settles {A} (o : Outcome A) : settles (pure o).
Proof.
  intros s o' s1 Hwf [= <- <-]. split; [done|]. split; [apply extends_refl|]. done.
Qed.

Lemma load_settles p : settles (load p).
Proof.
  intros s o s1 Hwf. unfold load.
  destruct (deref s p) as [v|] eqn:Hd; intros [= <- <-].
  - split; [done|]. split; [apply extends_refl|]. intros _ s2 He.
    by rewrite (deref_extends _ _ _ _ He Hd).
  - split; [done|]. split; [apply extends_refl|]. done.
Qed.

Lemma bind_settles {A B} (c : M TypeProvider A) (k : A -> M TypeProvider B) :
  settles c -> (forall a, settles (k a)) -> settles (c ≫= k).
Proof.
  intros Hc Hk s o s' Hwf. unfold mbind, M_bind, bind.
  destruct (c s) as [oc s1] eqn:Ec.
  destruct (Hc _ _ _ Hwf Ec) as (Hwf1 & He1 & Hre1).
  destruct oc as [a|e|r|].
  - intros Ek. destruct (Hk a _ _ _ Hwf1 Ek) as (Hwf2 & He2 & Hre2).
    split; [done|]. split; [by eapply extends_trans|].
    intros Ho s2 He. rewrite Hre1; [|done|by eapply extends_trans]. by apply Hre2.
  - intros [= <- <-]. split; [done|]. split; [done|]. intros _ s2 He. by rewrite Hre1.
  - intros [= <- <-]. split; [done|]. split; [done|]. intros _ s2 He. by rewrite Hre1.
  - intros [= <- <-]. split; [done|]. split; [done|]. done.
Qed.

Lemma mapM_settles {A B} (f : A -> M TypeProvider B) l :
  (forall a, settles (f a)) -> settles (mapM f l).
Proof.
  intros Hf. induction l as [|a l IH]; simpl.
  - apply ret_settles.
  - apply bind_settles; [done|]. intros b. apply bind_settles; [done|].
    intros bs. apply ret_settles.
Qed.

Ltac settle :=
  repeat first
    [ apply intern_settles | apply ret_settles | apply pure_settles
    | apply load_settles
    | apply bind_settles; [|intros ?]
    | apply mapM_settles; intros ?
    | match goal with
      | |- settles (if ?b then _ else _) => destruct b
      | |- settles (match ?x with _ => _ end) => destruct x
      end ].

Lemma withLocation_settles t l p : settles (withLocation t l p).
Proof. unfold withLocation. settle. Qed.

Lemma withLocationIfReference_settles l t : settles (withLocationIfReference l t).
Proof. unfold withLocationIfReference. settle. Qed.

Lemma fixedPointType_settles m n md : settles (fixedPointType m n md).
Proof. unfold fixedPointType. settle. Qed.

Lemma fromElementaryTypeName_token_settles t : settles (fromElementaryTypeName_token t).
Proof. unfold fromElementaryTypeName_token. destruct t; settle; try apply fixedPointType_settles. Qed.

Lemma fromElementaryTypeName_settles n : settles (fromElementaryTypeName n).
Proof.
  unfold fromElementaryTypeName.
  destruct (parse_name n) as [e|[token suffix]]; [settle|].
  destruct (match suffix with Some w => parse_location w | None => Some Storage end); [|settle].
  apply bind_settles; [apply fromElementaryTypeName_token_settles|]. intros t.
  settle; try apply withLocation_settles.
Qed.

Lemma call_settles f : settles (call f).
Proof.
  destruct f; simpl;
    try apply fromElementaryTypeName_token_settles;
    try apply fromElementaryTypeName_settles;
    try apply withLocation_settles;
    try apply withLocationIfReference_settles;
    try apply fixedPointType_settles;
    try (unfold arrayType_bytes, arrayType_dynamic, arrayType_fixed, stringLiteralType,
       tupleType, functionType_FunctionDefinition, functionType_VariableDeclaration,
       functionType_EventDefinition, functionType_FunctionTypeName,
       functionType_custom, rationalNumberType, contractType, enumType, moduleType,
       typeType, structType, modifierType, metaType, mappingType; solve [settle]).
  unfold functionType_strings.
  apply bind_settles; [apply mapM_settles, fromElementaryTypeName_settles|]. intros ps.
  apply bind_settles; [apply mapM_settles, fromElementaryTypeName_settles|]. intros rs.
  apply intern_settles.
Qed.

Lemma intern_key_hit x y s h :
  key x = key y -> intern x s = (Returned h, s) -> intern y s = (Returned h, s).
Proof.
  unfold intern. intros <-.
  destruct (static_pointer (key x)); [done|].
  destruct (cached s (key x)); [done|].
  intros H. pose proof (create_next x s) as Hn. rewrite H in Hn. simpl in Hn. lia.
Qed.


Lemma wf_init : wf TypeProvider_init.
Proof. constructor; simpl; intros; try done. by apply elem_of_nil in H. Qed.


(** C1: every factory function called twice with the same arguments returns
    the same pointer: once a call has been made from a well-formed state and
    had a defined outcome, the same call made again has the same outcome
    and leaves the state as it is; and once a value is interned, interning a
    value with the same key returns the pointer of the first call. *)
Theorem factory_calls_idempotent
  (f : FactoryCall) (x y : TypeValue) (s s1 s' : TypeProvider)
  (o : Outcome TypePointer) (h : TypePointer) :
  wf s ->
  (call f s = (o, s1) -> o <> Undefined -> call f s1 = (o, s1)) /\
  (key x = key y -> intern x s = (Returned h, s') ->
   intern y s' = (Returned h, s')).
Proof.
  intros Hwf. split.
  - intros Hc Ho. destruct (call_settles f _ _ _ Hwf Hc) as (_ & _ & Hre).
    apply Hre; [done|apply extends_refl].
  - intros Hk Hi. destruct (intern_settles x _ _ _ Hwf Hi) as (_ & _ & Hre).
    apply (intern_key_hit x y); [done|]. apply Hre; [done|apply extends_refl].
Qed.

Lemma factory_calls_idempotent_witness :
  let f := call_tupleType [m_boolType; m_uintM 31] in
  let x := FunctionType [m_boolType] [] ["ok"] [] Kind.Internal false Pure None
             false false false in
  let y := FunctionType [m_boolType] [] ["fine"] [] Kind.Internal false Pure None
             false false false in
  call f (call f TypeProvider_init).2 = call f TypeProvider_init /\
  intern y (intern x TypeProvider_init).2 = intern x TypeProvider_init.
Proof.
  intros f x y.
  destruct (factory_calls_idempotent f x y TypeProvider_init
              (call f TypeProvider_init).2 (intern x TypeProvider_init).2
              (Returned (heap 0)) (heap 0) wf_init) as [H1 H2].
  split.
  - apply H1; [reflexivity|discriminate].
  - apply H2; reflexivity.
Defined.

(** C3 as stated fails: [fixedBytesType(33)] does not fail with the error
    [BadFixedBytesLength(33)] returned to the caller, it throws
    [std::out_of_range]; and a width that is not a multiple of 8 trips the
    assertion of [integerType]. *)
Lemma fixedBytesType_33_throws :
  fixedBytesType 33 = Threw out_of_range /\
  fixedBytesType 33 <> Failed (BadFixedBytesLength 33) /\
  integerType 12 Unsigned = Threw InternalCompilerError.
Proof. split; [reflexivity|]. split; [discriminate|reflexivity]. Qed.

(** C3, amended: [integerType] returns for exactly the widths 8, 16, ...,
    256 and [fixedBytesType] for exactly the lengths 1, ..., 32; every other
    argument is rejected by an exception, [InternalCompilerError] for a
    width that is not a multiple of 8 and [std::out_of_range] otherwise;
    neither call changes the provider. *)
Theorem numeric_factories_accept_or_throw
  (n : Z) (modifier : Modifier) (s : TypeProvider) :
  is_unsigned n ->
  (integerType n modifier =
     if bool_decide (n mod 8 = 0)
     then if bool_decide (8 <= n <= 256)
          then Returned ((if bool_decide (modifier = Unsigned) then m_uintM else m_intM)
                           (Z.to_nat (n / 8 - 1)))
          else Threw out_of_range
     else Threw InternalCompilerError) /\
  (returns (integerType n modifier) = true <->
     exists k, 1 <= k <= 32 /\ n = 8 * k) /\
  (fixedBytesType n =
     if bool_decide (1 <= n <= 32) then Returned (m_bytesM (Z.to_nat (n - 1)))
     else Threw out_of_range) /\
  (returns (fixedBytesType n) = true <-> 1 <= n <= 32) /\
  (call (call_integerType n modifier) s).2 = s /\
  (call (call_fixedBytesType n) s).2 = s.
Proof.
  intros Hn. unfold is_unsigned in Hn.
  assert (Hi : integerType n modifier =
     if bool_decide (n mod 8 = 0)
     then if bool_decide (8 <= n <= 256)
          then Returned ((if bool_decide (modifier = Unsigned) then m_uintM else m_intM)
                           (Z.to_nat (n / 8 - 1)))
          else Threw out_of_range
     else Threw InternalCompilerError).
  { unfold integerType, solAssert. case_bool_decide as H8; [|done].
    assert (Hq : 0 <= n / 8 < UINT_MODULUS).
    { unfold UINT_MODULUS in *. split; [apply Z.div_pos; lia|].
      apply Z.div_lt_upper_bound; lia. }
    assert (Hr : (1 <= n / 8 <= 32) <-> (8 <= n <= 256)).
    { pose proof (Z.div_mod n 8 ltac:(lia)). lia. }
    destruct modifier; simpl.
    all: rewrite array_at_unsigned_sub by (unfold UINT_MODULUS in *; lia).
    all: destruct (decide (8 <= n <= 256)).
    all: try (rewrite !bool_decide_eq_true_2 by tauto; done).
    all: rewrite !bool_decide_eq_false_2 by tauto; done. }
  assert (Hf : fixedBytesType n =
     if bool_decide (1 <= n <= 32) then Returned (m_bytesM (Z.to_nat (n - 1)))
     else Threw out_of_range).
  { unfold fixedBytesType. apply array_at_unsigned_sub; unfold UINT_MODULUS in *; lia. }
  split; [exact Hi|]. split.
  { rewrite Hi. split.
    - destruct (decide (n mod 8 = 0)) as [H8|H8];
        [rewrite (bool_decide_eq_true_2 _ H8)|by rewrite (bool_decide_eq_false_2 _ H8)].
      destruct (decide (8 <= n <= 256)) as [Hr|Hr];
        [|by rewrite (bool_decide_eq_false_2 _ Hr)].
      intros _. exists (n / 8). pose proof (Z.div_mod n 8 ltac:(lia)). lia.
    - intros (k & Hk & ->).
      rewrite bool_decide_eq_true_2.
      2:{ rewrite Z.mul_comm. apply Z.mod_mul. lia. }
      rewrite bool_decide_eq_true_2 by lia. done. }
  split; [exact Hf|]. split.
  { rewrite Hf. case_bool_decide; simpl; split; try done. }
  done.
Qed.

Lemma numeric_factories_accept_or_throw_witness :
  integerType 264 Signed = Threw out_of_range /\
  fixedBytesType 264 = Threw out_of_range.
Proof.
  destruct (numeric_factories_accept_or_throw 264 Signed TypeProvider_init)
    as (H1 & _ & H2 & _).
  - unfold is_unsigned, UINT_MODULUS. lia.
  - split; [exact H1|exact H2].
Defined.

Lemma deref_static s p : is_static p = true -> deref s p = static_value p.
Proof. by destruct p. Qed.




(** C5: the static members exist in the provider as its constructor leaves
    it, before any factory function is called: the 32 signed and the 32
    unsigned integer types, the 32 fixed bytes types, the two address types,
    [bool], the four magic types, the empty tuple, [bytes] and [string] in
    storage and in memory, and the inaccessible dynamic type, 109 objects at
    109 addresses.  They are the same in every state of the provider and
    after [reset]. *)
Theorem atoms_prepopulated (s : TypeProvider) (i : nat) :
  (i < 32)%nat ->
  length atoms = 109%nat /\ NoDup atoms /\
  Forall (fun p => is_static p = true /\ is_Some (deref TypeProvider_init p) /\
                   deref s p = deref TypeProvider_init p /\
                   deref (reset s).2 p = deref TypeProvider_init p) atoms /\
  (m_intM i ∈ atoms /\
   deref TypeProvider_init (m_intM i) = Some (IntegerType (8 * (Z.of_nat i + 1)) Signed)) /\
  (m_uintM i ∈ atoms /\
   deref TypeProvider_init (m_uintM i) = Some (IntegerType (8 * (Z.of_nat i + 1)) Unsigned)) /\
  (m_bytesM i ∈ atoms /\
   deref TypeProvider_init (m_bytesM i) = Some (FixedBytesType (Z.of_nat i + 1))) /\
  Forall2 (fun p v => p ∈ atoms /\ deref TypeProvider_init p = Some v)
    [addressType; payableAddressType; boolType;
     m_magicTypes 0; m_magicTypes 1; m_magicTypes 2; m_magicTypes 3;
     emptyTupleType; bytesType; bytesMemoryType; stringType; stringMemoryType;
     inaccessibleDynamicType]
    [AddressType false; AddressType true; BoolType;
     MagicType Magic.Block None; MagicType Magic.Message None;
     MagicType Magic.Transaction None; MagicType Magic.ABI None;
     TupleType [];
     ArrayType Storage byte_pointer None false true;
     ArrayType Memory byte_pointer None false true;
     ArrayType Storage byte_pointer None true true;
     ArrayType Memory byte_pointer None true true;
     InaccessibleDynamicType].
Proof.
  intros Hi.
  split; [reflexivity|].
  split; [apply (bool_decide_unpack _); vm_compute; exact I|].
  split.
  { assert (H : Forall (fun p => is_static p = true /\ is_Some (static_value p)) atoms).
    { apply (bool_decide_unpack _). vm_compute. exact I. }
    eapply List.Forall_impl; [|exact H]. intros p [Hp Hv]. simpl.
    rewrite !(deref_static _ _ Hp). done. }
  assert (Hin : forall (f : nat -> TypePointer), f <$> seq 0 32 ⊆ atoms -> f i ∈ atoms).
  { intros f Hf. apply Hf. apply list_elem_of_fmap. exists i. split; [done|].
    apply elem_of_seq. lia. }
  assert (Hv : forall (g : nat -> TypeValue), (g <$> seq 0 32) !! i = Some (g i)).
  { intros g. rewrite list_lookup_fmap, lookup_seq_lt by done. done. }
  split; [split; [apply Hin; intros x Hx; unfold atoms; rewrite !elem_of_app; tauto|apply (Hv (fun i => IntegerType (8 * (Z.of_nat i + 1)) Signed))]|].
  split; [split; [apply Hin; intros x Hx; unfold atoms; rewrite !elem_of_app; tauto|apply (Hv (fun i => IntegerType (8 * (Z.of_nat i + 1)) Unsigned))]|].
  split; [split; [apply Hin; intros x Hx; unfold atoms; rewrite !elem_of_app; tauto|apply (Hv (fun i => FixedBytesType (Z.of_nat i + 1)))]|].
  repeat constructor; apply (bool_decide_unpack _); vm_compute; exact I.
Qed.

Lemma atoms_prepopulated_witness :
  deref TypeProvider_init (m_uintM 31) = Some (IntegerType 256 Unsigned) /\
  deref TypeProvider_init (m_bytesM 31) = Some (FixedBytesType 32).
Proof.
  destruct (atoms_prepopulated TypeProvider_init 31 ltac:(lia))
    as (_ & _ & _ & _ & [_ H1] & [_ H2] & _).
  split; [exact H1|exact H2].
Defined.

(** C8: [withLocationIfReference] applied to a pointer to a type that is not
    a reference type returns that pointer and changes nothing, whatever the
    location; it calls [withLocation] for the reference types only, which
    are the arrays, the structs and the string literals. *)
Theorem withLocationIfReference_identity
  (s : TypeProvider) (_location : DataLocation) (_type : TypePointer)
  (v : TypeValue) :
  deref s _type = Some v ->
  (isReferenceType v = false ->
   withLocationIfReference _location _type s = (Returned _type, s)) /\
  (isReferenceType v = true ->
   withLocationIfReference _location _type s
   = withLocation _type _location false s) /\
  (isReferenceType v = true <->
   category v = CArray \/ category v = CStruct \/ category v = CStringLiteral).
Proof.
  intros Hd. unfold withLocationIfReference, mbind, M_bind, bind, load.
  rewrite Hd. split; [|split].
  - by intros ->.
  - by intros ->.
  - destruct v; simpl; split; intros H; try done; try (by destruct H as [|[|]]); auto.
Qed.

Lemma withLocationIfReference_identity_witness :
  withLocationIfReference Memory (m_uintM 31) TypeProvider_init
  = (Returned (m_uintM 31), TypeProvider_init).
Proof.
  destruct (withLocationIfReference_identity TypeProvider_init Memory (m_uintM 31)
              (IntegerType 256 Unsigned) eq_refl) as (H & _).
  apply H. reflexivity.
Defined.

(** C9: [fromElementaryTypeName("uint")] returns the pointer
    [integerType(256, Unsigned)] returns, and so does
    [fromElementaryTypeName("uint256")]: an integer type named without its
    width has 256 bits. *)
Theorem uint_is_uint256 (s : TypeProvider) :
  fromElementaryTypeName "uint" s = (integerType 256 Unsigned, s) /\
  fromElementaryTypeName "uint256" s = (integerType 256 Unsigned, s) /\
  fromElementaryTypeName "int" s = (integerType 256 Signed, s) /\
  fromElementaryTypeName "int256" s = (integerType 256 Signed, s) /\
  integerType 256 Unsigned = Returned (m_uintM 31) /\
  integerType 256 Signed = Returned (m_intM 31).
Proof. repeat split; reflexivity. Qed.






(** C10: the two versions of the global context do the same: from every
    world their constructors build the same list of declarations, with the
    same names in the same order, bound to the same types, and leave the
    same world; [setCurrentContract], [declarations], [currentThis] and
    [currentSuper] of the one are those of the other. *)
Theorem global_context_versions_agree (g : GlobalContext) (c : nat) (w : World) :
  GlobalContextStatic.constructMagicVariables w
  = GlobalContextInstance.constructMagicVariables w /\
  GlobalContextStatic.new w = GlobalContextInstance.new w /\
  (forall g1 w1 g2 w2,
     GlobalContextStatic.new w = (Returned g1, w1) ->
     GlobalContextInstance.new w = (Returned g2, w2) ->
     length (GlobalContextStatic.declarations g1)
     = length (GlobalContextInstance.declarations g2) /\
     declarations_at w1 (GlobalContextStatic.declarations g1)
     = declarations_at w2 (GlobalContextInstance.declarations g2) /\
     (forall t, deref (_provider w1) t = deref (_provider w2) t)) /\
  GlobalContextStatic.setCurrentContract c g
  = GlobalContextInstance.setCurrentContract c g /\
  GlobalContextStatic.declarations g = GlobalContextInstance.declarations g /\
  GlobalContextStatic.currentThis g w = GlobalContextInstance.currentThis g w /\
  GlobalContextStatic.currentSuper g w = GlobalContextInstance.currentSuper g w.
Proof.
  assert (Hnew : GlobalContextStatic.new w = GlobalContextInstance.new w) by reflexivity.
  split; [reflexivity|]. split; [exact Hnew|]. split.
  { intros g1 w1 g2 w2 H1 H2. rewrite Hnew, H2 in H1. by simplify_eq. }
  repeat split; reflexivity.
Qed.

Lemma intern_total v s : exists t s1, intern v s = (Returned t, s1).
Proof.
  unfold intern. destruct (static_pointer (key v)); [by eauto|].
  destruct (cached s (key v)); [by eauto|].
  pose proof (create_returns v s). destruct (create v s) as [o s1]; simpl in *.
  subst. eauto.
Qed.

Lemma index_lookup m k v : m !! k = Some v -> index m k = (v, m).
Proof. unfold index. by intros ->. Qed.

Lemma World_wf_init : World_wf World_init.
Proof. constructor; [apply wf_init|done]. Qed.

Lemma currentThis_memoized g w c d :
  m_currentContract g = Some c ->
  m_thisPointer g !! Some c = Some (Some d) ->
  GlobalContextStatic.currentThis g w = (Returned (Some d, g), w).
Proof.
  intros Hc Hm. unfold GlobalContextStatic.currentThis. rewrite Hc.
  rewrite (index_lookup _ _ _ Hm). simpl.
  unfold mbind, M_bind, bind, mret, M_ret, ret. rewrite (index_lookup _ _ _ Hm).
  destruct g; simpl in *. by subst.
Qed.

Lemma currentSuper_memoized g w c d :
  m_currentContract g = Some c ->
  m_superPointer g !! Some c = Some (Some d) ->
  GlobalContextStatic.currentSuper g w = (Returned (Some d, g), w).
Proof.
  intros Hc Hm. unfold GlobalContextStatic.currentSuper. rewrite Hc.
  rewrite (index_lookup _ _ _ Hm). simpl.
  unfold mbind, M_bind, bind, mret, M_ret, ret. rewrite (index_lookup _ _ _ Hm).
  destruct g; simpl in *. by subst.
Qed.

Lemma index_absent m k :
  m !! k = None \/ m !! k = Some None ->
  exists m1, index m k = (None, m1) /\ index m1 k = (None, m1) /\
             m1 !! k = Some None.
Proof.
  intros [H|H]; unfold index at 1; rewrite H.
  - exists (<[k:=None]> m). split; [done|].
    split; [apply index_lookup|]; apply lookup_insert_eq.
  - exists m. split; [done|]. split; [by apply index_lookup|done].
Qed.

Lemma currentThis_first g w c :
  World_wf w ->
  m_currentContract g = Some c ->
  (m_thisPointer g !! Some c = None \/ m_thisPointer g !! Some c = Some None) ->
  exists t s1 m2,
    contractType c false (_provider w) = (Returned t, s1) /\
    m2 !! Some c = Some (Some (next_declaration w)) /\
    GlobalContextStatic.currentThis g w =
      (Returned (Some (next_declaration w),
                 mkGlobalContext (m_magicVariables g) (Some c) m2 (m_superPointer g)),
       mkWorld s1
         (<[next_declaration w := mkMagicVariableDeclaration "this" t]>
            (declarations_heap w))
         (S (next_declaration w))).
Proof.
  intros Hwf Hc Hm.
  destruct (index_absent _ _ Hm) as (m1 & H1 & H2 & H3).
  destruct (intern_total (ContractType c false) (_provider w)) as (t & s1 & Hi).
  exists t, s1, (<[Some c := Some (next_declaration w)]> m1).
  split; [exact Hi|]. split; [apply lookup_insert_eq|].
  unfold GlobalContextStatic.currentThis. rewrite Hc, H1. simpl.
  unfold mbind, M_bind, bind, mret, M_ret, ret, GlobalContextStatic.TypeProvider.contractType,
    on_provider, make_shared.
  unfold contractType in Hi. unfold contractType. rewrite Hi. simpl.
  rewrite H2. simpl.
  rewrite (index_lookup _ _ (Some (next_declaration w))) by apply lookup_insert_eq.
  done.
Qed.

Lemma currentSuper_first g w c :
  World_wf w ->
  m_currentContract g = Some c ->
  (m_superPointer g !! Some c = None \/ m_superPointer g !! Some c = Some None) ->
  exists t s1 m2,
    contractType c true (_provider w) = (Returned t, s1) /\
    m2 !! Some c = Some (Some (next_declaration w)) /\
    GlobalContextStatic.currentSuper g w =
      (Returned (Some (next_declaration w),
                 mkGlobalContext (m_magicVariables g) (Some c) (m_thisPointer g) m2),
       mkWorld s1
         (<[next_declaration w := mkMagicVariableDeclaration "super" t]>
            (declarations_heap w))
         (S (next_declaration w))).
Proof.
  intros Hwf Hc Hm.
  destruct (index_absent _ _ Hm) as (m1 & H1 & H2 & H3).
  destruct (intern_total (ContractType c true) (_provider w)) as (t & s1 & Hi).
  exists t, s1, (<[Some c := Some (next_declaration w)]> m1).
  split; [exact Hi|]. split; [apply lookup_insert_eq|].
  unfold GlobalContextStatic.currentSuper. rewrite Hc, H1. simpl.
  unfold mbind, M_bind, bind, mret, M_ret, ret, GlobalContextStatic.TypeProvider.contractType,
    on_provider, make_shared.
  unfold contractType in Hi. unfold contractType. rewrite Hi. simpl.
  rewrite H2. simpl.
  rewrite (index_lookup _ _ (Some (next_declaration w))) by apply lookup_insert_eq.
  done.
Qed.

(** C6 as stated fails in its last part: after [reset()] of the provider and
    [setCurrentContract(C)] on the same global context, [currentThis()]
    returns the pointer it returned before, not a fresh one; the type the
    declaration is bound to was destroyed by the reset. *)
Lemma currentThis_after_reset_not_fresh :
  match GlobalContextStatic.new World_init with
  | (Returned g, w) =>
      match GlobalContextStatic.currentThis
              (GlobalContextStatic.setCurrentContract 7 g) w with
      | (Returned (d1, g1), w1) =>
          match GlobalContextStatic.currentThis
                  (GlobalContextStatic.setCurrentContract 7 g1)
                  (on_provider reset w1).2 with
          | (Returned (d2, _), w2) =>
              d1 = Some 27%nat /\ d2 = d1 /\
              (d ← declarations_heap w2 !! 27%nat; deref (_provider w2) (type d)) = None
          | _ => False
          end
      | _ => False
      end
  | _ => False
  end.
Proof. vm_compute. repeat split; reflexivity. Qed.

(** C6, amended: after [setCurrentContract(C)], the first call of
    [currentThis()] for a contract creates a declaration named ["this"]
    bound to the type [contractType(C, false)] returns, and the calls after
    it return the pointer to that declaration; [currentSuper()] does the
    same with a declaration named ["super"] bound to
    [contractType(C, true)].  Neither touches what the other memoized, and
    a pointer that is memoized for the contract is returned whatever the
    state of the provider is.  The memoized pointers are members of the
    global context, which a [reset()] of the provider does not touch: after
    it and [setCurrentContract(C)], [currentThis()] and [currentSuper()]
    still return the pointers they returned before. *)
Theorem currentThis_currentSuper_memoized (g : GlobalContext) (c : nat) (w : World) :
  World_wf w ->
  ((m_thisPointer g !! Some c = None \/ m_thisPointer g !! Some c = Some None) ->
   exists d t g1 w1,
     GlobalContextStatic.currentThis (GlobalContextStatic.setCurrentContract c g) w
     = (Returned (Some d, g1), w1) /\
     declarations_heap w !! d = None /\
     declarations_heap w1 !! d = Some (mkMagicVariableDeclaration "this" t) /\
     on_provider (contractType c false) w1 = (Returned t, w1) /\
     GlobalContextStatic.currentThis g1 w1 = (Returned (Some d, g1), w1) /\
     GlobalContextStatic.currentThis (GlobalContextStatic.setCurrentContract c g1)
       (on_provider reset w1).2
     = (Returned (Some d, g1), (on_provider reset w1).2) /\
     World_wf w1 /\ m_superPointer g1 = m_superPointer g) /\
  ((m_superPointer g !! Some c = None \/ m_superPointer g !! Some c = Some None) ->
   exists d t g1 w1,
     GlobalContextStatic.currentSuper (GlobalContextStatic.setCurrentContract c g) w
     = (Returned (Some d, g1), w1) /\
     declarations_heap w !! d = None /\
     declarations_heap w1 !! d = Some (mkMagicVariableDeclaration "super" t) /\
     on_provider (contractType c true) w1 = (Returned t, w1) /\
     GlobalContextStatic.currentSuper g1 w1 = (Returned (Some d, g1), w1) /\
     GlobalContextStatic.currentSuper (GlobalContextStatic.setCurrentContract c g1)
       (on_provider reset w1).2
     = (Returned (Some d, g1), (on_provider reset w1).2) /\
     World_wf w1 /\ m_thisPointer g1 = m_thisPointer g) /\
  (forall d w2,
     m_thisPointer g !! Some c = Some (Some d) ->
     GlobalContextStatic.currentThis (GlobalContextStatic.setCurrentContract c g) w2
     = (Returned (Some d, GlobalContextStatic.setCurrentContract c g), w2)) /\
  (forall d w2,
     m_superPointer g !! Some c = Some (Some d) ->
     GlobalContextStatic.currentSuper (GlobalContextStatic.setCurrentContract c g) w2
     = (Returned (Some d, GlobalContextStatic.setCurrentContract c g), w2)).
Proof.
  intros Hwf.
  assert (Hfresh : declarations_heap w !! next_declaration w = None).
  { destruct (declarations_heap w !! next_declaration w) eqn:E; [|done].
    apply (Wwf_declarations _ Hwf) in E. lia. }
  assert (Hwf1 : forall s1 D, wf s1 ->
            World_wf (mkWorld s1 (<[next_declaration w := D]> (declarations_heap w))
                        (S (next_declaration w)))).
  { intros s1 D Hs1. constructor; [exact Hs1|]. simpl. intros d D'.
    destruct (decide (d = next_declaration w)) as [->|Hne]; [lia|].
    rewrite lookup_insert_ne by done. intros E.
    apply (Wwf_declarations _ Hwf) in E. lia. }
  split; [|split; [|split]].
  - intros Hthis.
    destruct (currentThis_first (GlobalContextStatic.setCurrentContract c g) w c
                Hwf eq_refl Hthis) as (t & s1 & m2 & Hi & Hm & Hrun).
    destruct (intern_settles _ _ _ _ (Wwf_provider _ Hwf) Hi) as (Hs1 & _ & Hre).
    eexists _, t, _, _. split; [exact Hrun|]. split; [exact Hfresh|].
    split; [apply lookup_insert_eq|]. split.
    { unfold on_provider. simpl. unfold contractType.
      rewrite Hre; [done|done|apply extends_refl]. }
    split; [by apply (currentThis_memoized _ _ c)|].
    split; [by apply (currentThis_memoized _ _ c)|].
    split; [by apply Hwf1|done].
  - intros Hsuper.
    destruct (currentSuper_first (GlobalContextStatic.setCurrentContract c g) w c
                Hwf eq_refl Hsuper) as (t & s1 & m2 & Hi & Hm & Hrun).
    destruct (intern_settles _ _ _ _ (Wwf_provider _ Hwf) Hi) as (Hs1 & _ & Hre).
    eexists _, t, _, _. split; [exact Hrun|]. split; [exact Hfresh|].
    split; [apply lookup_insert_eq|]. split.
    { unfold on_provider. simpl. unfold contractType.
      rewrite Hre; [done|done|apply extends_refl]. }
    split; [by apply (currentSuper_memoized _ _ c)|].
    split; [by apply (currentSuper_memoized _ _ c)|].
    split; [by apply Hwf1|done].
  - intros d w2 Hm. by apply (currentThis_memoized _ _ c).
  - intros d w2 Hm. by apply (currentSuper_memoized _ _ c).
Qed.

Lemma on_provider_run {A} (c : M TypeProvider A) w o s1 :
  c (_provider w) = (o, s1) ->
  on_provider c w = (o, mkWorld s1 (declarations_heap w) (next_declaration w)).
Proof. unfold on_provider. by intros ->. Qed.

Lemma on_provider_hit {A} (c : M TypeProvider A) w (a : A) :
  on_provider c w = (Returned a, w) <-> c (_provider w) = (Returned a, _provider w).
Proof.
  unfold on_provider. destruct w as [s h n]; simpl.
  destruct (c s) as [o s1]. split; intros H; by simplify_eq.
Qed.

Lemma initializer_list_run (L : list (string * M World TypePointer)) (w : World) :
  World_wf w ->
  Forall (fun E => provider_call E.2) L ->
  exists ts w',
    initializer_list L w
    = (Returned (seq (next_declaration w) (length L)), w') /\
    World_wf w' /\ extends (_provider w) (_provider w') /\
    next_declaration w' = (next_declaration w + length L)%nat /\
    (forall d, (d < next_declaration w)%nat ->
               declarations_heap w' !! d = declarations_heap w !! d) /\
    Forall2 (fun E t => E.2 w' = (Returned t, w')) L ts /\
    declarations_at w' (seq (next_declaration w) (length L))
    = zip_with (fun E t => Some (mkMagicVariableDeclaration E.1 t)) L ts.
Proof.
  intros Hwf HL. revert w Hwf.
  induction HL as [|[nm C] L (c & Hset & Htot & HC) HL IH]; intros w Hwf;
    [|simpl in HC; subst C].
  - exists [], w. simpl. split; [done|]. split; [done|].
    split; [apply extends_refl|]. split; [lia|]. split; [done|].
    split; [constructor|done].
  - destruct (Htot _ (Wwf_provider _ Hwf)) as (t & s1 & Hc).
    destruct (Hset _ _ _ (Wwf_provider _ Hwf) Hc) as (Hwf1 & Hext1 & Hre1).
    set (w1 := mkWorld s1
                 (<[next_declaration w := mkMagicVariableDeclaration nm t]>
                    (declarations_heap w))
                 (S (next_declaration w))).
    assert (HW1 : World_wf w1).
    { constructor; [done|]. simpl. intros d D Hd.
      destruct (decide (d = next_declaration w)) as [->|Hne]; [lia|].
      rewrite lookup_insert_ne in Hd by done.
      apply (Wwf_declarations _ Hwf) in Hd. lia. }
    destruct (IH w1 HW1) as (ts & w' & Hrun & HW' & Hext & Hnext & Hframe & Hts & Hat).
    exists (t :: ts), w'. simpl in *.
    split.
    { unfold initializer_list in *. simpl.
      unfold mbind, M_bind, bind at 1. unfold bind at 1. simpl.
      rewrite (on_provider_run _ _ _ _ Hc). unfold make_shared at 1. simpl.
      fold w1. unfold mbind, M_bind in Hrun. unfold bind at 1. rewrite Hrun. done. }
    split; [done|]. split; [by eapply extends_trans|].
    split; [lia|]. split.
    { intros d Hd. rewrite Hframe by lia. by rewrite lookup_insert_ne by lia. }
    split.
    { constructor; [|done]. simpl. apply on_provider_hit. apply Hre1; done. }
    f_equal; [|done].
    rewrite Hframe by lia. apply lookup_insert_eq.
Qed.

Lemma functionType_strings_run ps rs pps prs k a m s :
  mapM fromElementaryTypeName ps s = (Returned pps, s) ->
  mapM fromElementaryTypeName rs s = (Returned prs, s) ->
  functionType_strings ps rs k a m s
  = intern (FunctionType pps prs [] [] k a m None false false false) s.
Proof.
  intros Hp Hr. unfold functionType_strings, mbind, M_bind, bind.
  by rewrite Hp, Hr.
Qed.

Lemma functionType_strings_call ps rs pps prs k a m :
  (forall s, mapM fromElementaryTypeName ps s = (Returned pps, s)) ->
  (forall s, mapM fromElementaryTypeName rs s = (Returned prs, s)) ->
  provider_call (on_provider (functionType_strings ps rs k a m)).
Proof.
  intros Hp Hr. exists (functionType_strings ps rs k a m).
  split; [apply (call_settles (call_functionType_strings ps rs k a m))|].
  split; [|done]. intros s _.
  rewrite (functionType_strings_run _ _ _ _ _ _ _ _ (Hp s) (Hr s)).
  apply intern_total.
Qed.

Lemma pure_call (t : TypePointer) : provider_call (on_provider (pure (Returned t))).
Proof.
  exists (pure (Returned t)). split; [apply pure_settles|]. split; [|done].
  intros s _. by eexists _, _.
Qed.

Ltac provider_calls :=
  repeat (constructor;
          [first [ apply pure_call
                 | eapply functionType_strings_call; intros ?; reflexivity ]|]);
  constructor.

Lemma intern_function_hit ps rs pn rn k a m d g v b s t :
  intern (FunctionType ps rs pn rn k a m d g v b) s = (Returned t, s) ->
  exists pn' rn', deref s t = Some (FunctionType ps rs pn' rn' k a m d g v b).
Proof.
  unfold intern. simpl.
  destruct (find_general _ _ _) as [x|] eqn:Hf.
  - intros [= <-]. apply find_general_key in Hf. simpl.
    destruct (objects s !! x) as [v'|]; [|done]. simpl in Hf.
    destruct v'; simpl in Hf; try done. injection Hf as -> -> -> -> -> -> -> -> ->. by eexists _, _.
  - intros H.
    pose proof (create_next (FunctionType ps rs pn rn k a m d g v b) s) as Hn.
    rewrite H in Hn. simpl in Hn. lia.
Qed.

Lemma functionType_hit ps rs pps prs k a m w t :
  (forall s, mapM fromElementaryTypeName ps s = (Returned pps, s)) ->
  (forall s, mapM fromElementaryTypeName rs s = (Returned prs, s)) ->
  GlobalContextStatic.TypeProvider.functionType ps rs k a m w = (Returned t, w) ->
  exists pn rn,
    deref (_provider w) t
    = Some (FunctionType pps prs pn rn k a m None false false false).
Proof.
  intros Hp Hr H. apply on_provider_hit in H.
  rewrite (functionType_strings_run _ _ _ _ _ _ _ _ (Hp _) (Hr _)) in H.
  by apply intern_function_hit in H.
Qed.

(** Runs the constructor from a well-formed world [w]: names the types
    [t0], [t1], ... the 27 declarations are bound to, with for each the call
    that returns it in the world the constructor leaves. *)
Ltac run_constructor Hwf w' HW' Hat :=
  unfold GlobalContextStatic.new, GlobalContextStatic.constructMagicVariables;
  match goal with
  | |- context [initializer_list ?L] =>
      let HL := fresh "HL" in
      assert (HL : Forall (fun E => provider_call E.2) L) by provider_calls;
      let ts := fresh "ts" in
      let Hrun := fresh "Hrun" in let Hts := fresh "Hts" in
      destruct (initializer_list_run L _ Hwf HL)
        as (ts & w' & Hrun & HW' & _ & _ & _ & Hts & Hat);
      clear HL;
      unfold mbind, M_bind, bind; rewrite Hrun; clear Hrun;
      repeat match goal with
        | H : Forall2 _ (_ :: _) _ |- _ =>
            let t := fresh "t" in let Ht := fresh "Ht" in
            apply Forall2_cons_inv_l in H as (t & ? & Ht & H & ->);
            cbn [snd] in Ht
        end;
      match goal with
      | H : Forall2 _ [] _ |- _ => apply Forall2_nil_inv_l in H as ->
      end;
      unfold declarations_at in Hat; simpl in Hat;
      injection Hat; clear Hat; intros
  end.

(** C7: in the list the constructor builds, [keccak256] and [sha3] are two
    declarations at two addresses bound to one type, the function type
    [fn(bytes memory) -> bytes32] of kind [KECCAK256]; so are [selfdestruct]
    and [suicide], bound to [fn(address payable)] of kind [Selfdestruct]. *)
Theorem aliases_are_two_declarations_of_one_type (w : World) :
  World_wf w ->
  exists g w' keccak256 sha3 selfdestruct suicide tk ts pn rn pn' rn',
    GlobalContextStatic.new w = (Returned g, w') /\
    GlobalContextStatic.declarations g !! 7%nat = Some keccak256 /\
    GlobalContextStatic.declarations g !! 23%nat = Some sha3 /\
    GlobalContextStatic.declarations g !! 21%nat = Some selfdestruct /\
    GlobalContextStatic.declarations g !! 24%nat = Some suicide /\
    keccak256 <> sha3 /\ selfdestruct <> suicide /\
    declarations_heap w' !! keccak256
    = Some (mkMagicVariableDeclaration "keccak256" tk) /\
    declarations_heap w' !! sha3 = Some (mkMagicVariableDeclaration "sha3" tk) /\
    declarations_heap w' !! selfdestruct
    = Some (mkMagicVariableDeclaration "selfdestruct" ts) /\
    declarations_heap w' !! suicide
    = Some (mkMagicVariableDeclaration "suicide" ts) /\
    deref (_provider w') tk
    = Some (FunctionType [m_bytesMemoryType] [m_bytesM 31] pn rn Kind.KECCAK256
              false Pure None false false false) /\
    deref (_provider w') ts
    = Some (FunctionType [m_payableAddressType] [] pn' rn' Kind.Selfdestruct
              false NonPayable None false false false).
Proof.
  intros Hwf.
  assert (exists g w' keccak256 sha3 selfdestruct suicide tk ts,
    GlobalContextStatic.new w = (Returned g, w') /\
    GlobalContextStatic.declarations g !! 7%nat = Some keccak256 /\
    GlobalContextStatic.declarations g !! 23%nat = Some sha3 /\
    GlobalContextStatic.declarations g !! 21%nat = Some selfdestruct /\
    GlobalContextStatic.declarations g !! 24%nat = Some suicide /\
    keccak256 <> sha3 /\ selfdestruct <> suicide /\
    declarations_heap w' !! keccak256
    = Some (mkMagicVariableDeclaration "keccak256" tk) /\
    declarations_heap w' !! sha3 = Some (mkMagicVariableDeclaration "sha3" tk) /\
    declarations_heap w' !! selfdestruct
    = Some (mkMagicVariableDeclaration "selfdestruct" ts) /\
    declarations_heap w' !! suicide
    = Some (mkMagicVariableDeclaration "suicide" ts) /\
    GlobalContextStatic.TypeProvider.functionType ["bytes memory"] ["bytes32"]
      Kind.KECCAK256 false Pure w' = (Returned tk, w') /\
    GlobalContextStatic.TypeProvider.functionType ["address payable"] []
      Kind.Selfdestruct false NonPayable w' = (Returned ts, w'))
    as (g & w' & k & s3 & sd & su & tk & ts & Hnew & H7 & H23 & H21 & H24 & Hn1 & Hn2
        & Hk & Hs3 & Hsd & Hsu & Htk & Hts).
  { run_constructor Hwf w' HW' Hat.
    eexists _, w', _, _, _, _, _, _. split; [reflexivity|].
    do 4 (split; [reflexivity|]).
    split; [lia|]. split; [lia|].
    repeat match goal with
      | H1 : ?c = (Returned ?a, _), H2 : ?c = (Returned ?b, _) |- _ =>
          assert (a = b) by congruence; subst a; clear H2
      end.
    repeat split; eassumption. }
  destruct (functionType_hit ["bytes memory"] ["bytes32"]
              [m_bytesMemoryType] [m_bytesM 31] _ _ _ _ _
              (fun _ => eq_refl) (fun _ => eq_refl) Htk) as (pn & rn & Hdk).
  destruct (functionType_hit ["address payable"] [] [m_payableAddressType] []
              _ _ _ _ _ (fun _ => eq_refl) (fun _ => eq_refl) Hts)
    as (pn' & rn' & Hds).
  exists g, w', k, s3, sd, su, tk, ts, pn, rn, pn', rn'.
  repeat split; assumption.
Qed.

Lemma aliases_are_two_declarations_of_one_type_witness :
  exists g w' keccak256 sha3,
    GlobalContextStatic.new World_init = (Returned g, w') /\
    GlobalContextStatic.declarations g !! 7%nat = Some keccak256 /\
    GlobalContextStatic.declarations g !! 23%nat = Some sha3 /\
    keccak256 <> sha3.
Proof.
  destruct (aliases_are_two_declarations_of_one_type World_init World_wf_init)
    as (g & w' & k & s3 & _ & _ & _ & _ & _ & _ & _ & _ & H1 & H2 & H3 & _ & _ & H4 & _).
  exists g, w', k, s3. split; [exact H1|]. split; [exact H2|]. split; [exact H3|exact H4].
Defined.

Lemma pure_hit (t t' : TypePointer) w :
  on_provider (pure (Returned t)) w = (Returned t', w) -> t' = t.
Proof. unfold on_provider, pure. destruct w. by intros [= ->]. Qed.

(** C2 as stated fails: the list is not in the order of the table; its
    second declaration is [addmod], the second row of the table is
    [block]. *)
Lemma declarations_not_in_table_order :
  match GlobalContextStatic.new World_init with
  | (Returned g, w') =>
      declarations_at w' (GlobalContextStatic.declarations g) !! 1%nat
      = Some (Some (mkMagicVariableDeclaration "addmod" (heap 0))) /\
      builtins_table.*1 !! 1%nat = Some "block" /\
      ~ Forall2 (is_row w') builtins_table
          (declarations_at w' (GlobalContextStatic.declarations g))
  | _ => False
  end.
Proof.
  destruct (GlobalContextStatic.new World_init) as [o w'] eqn:E.
  vm_compute in E. injection E as <- <-.
  split; [reflexivity|]. split; [reflexivity|].
  intros H. apply Forall2_cons_1 in H as [_ H].
  apply Forall2_cons_1 in H as [[Hn _] _]. discriminate Hn.
Qed.

Lemma table_by_name_permutation :
  (fun i => default ("", BUint256) (builtins_table !! i))
    <$> [0; 5; 7; 1; 12; 18; 13; 14; 21; 22; 23; 24; 25; 2; 6; 4; 8; 9;
         10; 11; 17; 19; 16; 15; 20; 3; 26]%nat
  ≡ₚ builtins_table.
Proof.
  apply NoDup_Permutation.
  - apply (bool_decide_unpack _). vm_compute. exact I.
  - apply (bool_decide_unpack _). vm_compute. exact I.
  - intros x. split; intros Hx%list_elem_of_In; revert x Hx;
      apply (List.Forall_forall (fun x => x ∈ _));
      apply (bool_decide_unpack _); vm_compute; exact I.
Qed.

(** C2, amended: the declarations of the global context are exactly the
    rows of the table, each row once, the two [require] rows and the two
    [revert] rows included; they are in the order in which the constructor
    lists them, which is the order of their names and not the order of the
    table; [declarations()] keeps that order. *)
Theorem declarations_are_the_table_by_name (w : World) :
  World_wf w ->
  exists g w' rows,
    GlobalContextStatic.new w = (Returned g, w') /\
    rows ≡ₚ builtins_table /\
    Forall2 (is_row w') rows
      (declarations_at w' (GlobalContextStatic.declarations g)) /\
    rows.*1 =
      ["abi"; "addmod"; "assert"; "block"; "blockhash"; "ecrecover"; "gasleft";
       "keccak256"; "log0"; "log1"; "log2"; "log3"; "log4"; "msg"; "mulmod";
       "now"; "require"; "require"; "revert"; "revert"; "ripemd160";
       "selfdestruct"; "sha256"; "sha3"; "suicide"; "tx"; "type"] /\
    Sorted (fun a b => String.leb a b = true) rows.*1 /\
    GlobalContextStatic.declarations g = m_magicVariables g.
Proof.
  intros Hwf.
  pose (sigma := [0; 5; 7; 1; 12; 18; 13; 14; 21; 22; 23; 24; 25; 2; 6; 4; 8; 9;
                  10; 11; 17; 19; 16; 15; 20; 3; 26]%nat).
  pose (rows := (fun i => default ("", BUint256) (builtins_table !! i)) <$> sigma).
  run_constructor Hwf w' HW' Hat.
  eexists _, w', rows. split; [reflexivity|].
  split; [exact table_by_name_permutation|].
  split; [|split; [reflexivity|split; [|reflexivity]]].
  2:{ apply (bool_decide_unpack _). vm_compute. exact I. }
  unfold declarations_at, rows, sigma. simpl.
  repeat (constructor;
    [match goal with
     | H : declarations_heap w' !! ?d = _ |- context [declarations_heap w' !! ?d] =>
         rewrite H
     end;
     split; [reflexivity|]; cbn [type snd];
     match goal with
     | H : _ = (Returned ?t, w') |- is_bound_type _ _ ?t = true =>
         first
           [ apply pure_hit in H; subst t; reflexivity
           | eapply functionType_hit in H; [|intros ?; reflexivity..];
             destruct H as (? & ? & H); unfold is_bound_type; rewrite H;
             apply bool_decide_eq_true_2; repeat split; auto ]
     end|]).
  constructor.
Qed.

Lemma declarations_are_the_table_by_name_witness :
  exists g w' rows,
    GlobalContextStatic.new World_init = (Returned g, w') /\
    rows ≡ₚ builtins_table /\
    Forall2 (is_row w') rows
      (declarations_at w' (GlobalContextStatic.declarations g)).
Proof.
  destruct (declarations_are_the_table_by_name World_init World_wf_init)
    as (g & w' & rows & H1 & H2 & H3 & _).
  exists g, w', rows. split; [exact H1|]. split; [exact H2|exact H3].
Defined.

Lemma new_init_returns :
  exists g w', GlobalContextStatic.new World_init = (Returned g, w').
Proof.
  assert (Ho : returns (GlobalContextStatic.new World_init).1 = true)
    by (vm_compute; reflexivity).
  destruct (GlobalContextStatic.new World_init) as [[g| | |] w']; try discriminate.
  by exists g, w'.
Qed.

Lemma global_context_versions_agree_witness :
  exists g1 w1 g2 w2,
    GlobalContextStatic.new World_init = (Returned g1, w1) /\
    GlobalContextInstance.new World_init = (Returned g2, w2) /\
    declarations_at w1 (GlobalContextStatic.declarations g1)
    = declarations_at w2 (GlobalContextInstance.declarations g2).
Proof.
  destruct (global_context_versions_agree (mkGlobalContext [] None ∅ ∅) 0 World_init)
    as (_ & Hnew & H & _).
  destruct new_init_returns as (g1 & w1 & E1).
  exists g1, w1, g1, w1. split; [exact E1|].
  split; [exact (eq_trans (eq_sym Hnew) E1)|].
  exact (proj1 (proj2 (H g1 w1 g1 w1 E1 (eq_trans (eq_sym Hnew) E1)))).
Defined.


(** ** More on the inline factory functions *)

Lemma integerType_cases (n : Z) (modifier : Modifier) :
  is_unsigned n ->
  integerType n modifier =
    if bool_decide (n mod 8 = 0)
    then if bool_decide (8 <= n <= 256)
         then Returned ((if bool_decide (modifier = Unsigned) then m_uintM else m_intM)
                          (Z.to_nat (n / 8 - 1)))
         else Threw out_of_range
    else Threw InternalCompilerError.
Proof.
  intros Hn. unfold is_unsigned in Hn.
  unfold integerType, solAssert. case_bool_decide as H8; [|done].
  assert (Hq : 0 <= n / 8 < UINT_MODULUS).
  { unfold UINT_MODULUS in *. split; [apply Z.div_pos; lia|].
    apply Z.div_lt_upper_bound; lia. }
  assert (Hr : (1 <= n / 8 <= 32) <-> (8 <= n <= 256)).
  { pose proof (Z.div_mod n 8 ltac:(lia)). lia. }
  destruct modifier; simpl.
  all: rewrite array_at_unsigned_sub by (unfold UINT_MODULUS in *; lia).
  all: destruct (decide (8 <= n <= 256)).
  all: try (rewrite !bool_decide_eq_true_2 by tauto; done).
  all: rewrite !bool_decide_eq_false_2 by tauto; done.
Qed.

Lemma integerType_returned (n : Z) (modifier : Modifier) (p : TypePointer) :
  is_unsigned n -> integerType n modifier = Returned p ->
  n mod 8 = 0 /\ 8 <= n <= 256 /\
  p = (if bool_decide (modifier = Unsigned) then m_uintM else m_intM)
        (Z.to_nat (n / 8 - 1)).
Proof.
  intros Hn. rewrite (integerType_cases _ _ Hn).
  repeat case_bool_decide; try done; intros [= <-]; done.
Qed.

Lemma fixedBytesType_returned (m : Z) (p : TypePointer) :
  is_unsigned m -> fixedBytesType m = Returned p ->
  1 <= m <= 32 /\ p = m_bytesM (Z.to_nat (m - 1)).
Proof.
  intros Hm. unfold fixedBytesType, is_unsigned in *.
  rewrite array_at_unsigned_sub by (unfold UINT_MODULUS in *; lia).
  case_bool_decide; [|done]. by intros [= <-].
Qed.

Lemma elem_of_atoms_intM i : (i < 32)%nat -> m_intM i ∈ atoms.
Proof.
  intros Hi. unfold atoms. rewrite !elem_of_app. right. left.
  apply list_elem_of_fmap. exists i. split; [done|]. apply elem_of_seq. lia.
Qed.

Lemma elem_of_atoms_uintM i : (i < 32)%nat -> m_uintM i ∈ atoms.
Proof.
  intros Hi. unfold atoms. rewrite !elem_of_app. right. right. left.
  apply list_elem_of_fmap. exists i. split; [done|]. apply elem_of_seq. lia.
Qed.

Lemma elem_of_atoms_bytesM i : (i < 32)%nat -> m_bytesM i ∈ atoms.
Proof.
  intros Hi. unfold atoms. rewrite !elem_of_app. right. right. right. left.
  apply list_elem_of_fmap. exists i. split; [done|]. apply elem_of_seq. lia.
Qed.

(** X1: [integerType] returns the same pointer for the same width and
    signedness only, and what it returns is one of the static members, not
    an object on the heap. *)
Theorem integerType_injective (n n' : Z) (m m' : Modifier) (p : TypePointer) :
  is_unsigned n -> is_unsigned n' ->
  integerType n m = Returned p ->
  integerType n' m' = Returned p ->
  n = n' /\ m = m' /\ p ∈ atoms /\ is_static p = true.
Proof.
  intros Hn Hn' H1 H2.
  apply integerType_returned in H1 as (H8 & Hr & ->); [|done].
  apply integerType_returned in H2 as (H8' & Hr' & Hp); [|done].
  pose proof (Z.div_mod n 8 ltac:(lia)) as Hd.
  pose proof (Z.div_mod n' 8 ltac:(lia)) as Hd'.
  assert (Hi : (Z.to_nat (n / 8 - 1) < 32)%nat) by lia.
  assert (n = n' /\ m = m') as [<- <-].
  { destruct m, m'; simpl in Hp; simplify_eq; split; try done; lia. }
  split; [done|]. split; [done|].
  destruct m; simpl; (split; [|by apply bool_decide_eq_true_2]).
  - by apply elem_of_atoms_uintM.
  - by apply elem_of_atoms_intM.
Qed.

Lemma integerType_injective_witness :
  (256 = 256 /\ Unsigned = Unsigned) /\ m_uintM 31 ∈ atoms.
Proof.
  assert (H : is_unsigned 256) by (unfold is_unsigned, UINT_MODULUS; lia).
  destruct (integerType_injective 256 256 Unsigned Unsigned (m_uintM 31)
              H H eq_refl eq_refl) as (H1 & H2 & H3 & _).
  split; [split; [exact H1|exact H2]|exact H3].
Defined.

(** X2: [fixedBytesType] returns the same pointer for the same length only,
    what it returns is one of the static members, and no integer type has
    that address. *)
Theorem fixedBytesType_injective (k k' n : Z) (m : Modifier) (p : TypePointer) :
  is_unsigned k -> is_unsigned k' -> is_unsigned n ->
  fixedBytesType k = Returned p ->
  (fixedBytesType k' = Returned p -> k = k') /\
  integerType n m <> Returned p /\
  p ∈ atoms /\ is_static p = true.
Proof.
  intros Hk Hk' Hn H1.
  apply fixedBytesType_returned in H1 as (Hr & ->); [|done].
  split; [|split; [|split]].
  - intros H2. apply fixedBytesType_returned in H2 as (Hr' & Hp); [|done].
    simplify_eq. lia.
  - intros H2. apply integerType_returned in H2 as (_ & _ & Hp); [|done].
    by destruct m.
  - apply elem_of_atoms_bytesM. lia.
  - apply bool_decide_eq_true_2. lia.
Qed.

Lemma fixedBytesType_injective_witness :
  integerType 8 Unsigned <> byteType /\ integerType 8 Signed <> byteType.
Proof.
  assert (H8 : is_unsigned 8) by (unfold is_unsigned, UINT_MODULUS; lia).
  assert (H1 : is_unsigned 1) by (unfold is_unsigned, UINT_MODULUS; lia).
  split.
  - exact (proj1 (proj2 (fixedBytesType_injective 1 1 8 Unsigned (m_bytesM 0)
                           H1 H1 H8 eq_refl))).
  - exact (proj1 (proj2 (fixedBytesType_injective 1 1 8 Signed (m_bytesM 0)
                           H1 H1 H8 eq_refl))).
Defined.

(** ** [ArrayUtil.h] *)

Lemma conjunction_cons (B1 : bool) (Bn : list bool) :
  ArrayUtil.conjunction (B1 :: Bn) = B1 && ArrayUtil.conjunction Bn.
Proof.
  destruct Bn as [|B2 Bn]; simpl.
  - by rewrite andb_true_r.
  - by destruct B1.
Qed.

Lemma conjunction_Forall (Bs : list bool) :
  ArrayUtil.conjunction Bs = true <-> Forall (fun B => B = true) Bs.
Proof.
  induction Bs as [|B1 Bn IH].
  - split; [constructor|done].
  - rewrite conjunction_cons, andb_true_iff, IH. split.
    + intros [H1 H2]. by constructor.
    + intros H. by inversion H.
Qed.

(** X3: [conjunction<B...>::value] holds exactly when every [B::value] of
    the pack does, the empty pack included; so the [static_assert] of
    [return_type_helper<void, Types...>] holds exactly when no type of the
    pack decays to a [std::reference_wrapper], and [makeArray<void>] has an
    array type, of as many elements as it has arguments, exactly when
    moreover the pack has a common type.  With an element type [D] given,
    the array type is [std::array<D, sizeof...(Types)>] whatever the
    arguments are. *)
Theorem makeArray_return_type
  (CppType : Type) (decay_t : CppType -> CppType)
  (as_reference_wrapper : CppType -> option CppType)
  (common_type : list CppType -> option CppType)
  (Bs : list bool) (Types : list CppType) (d T : CppType) (N : nat) :
  (ArrayUtil.conjunction Bs = true <-> forall B, B ∈ Bs -> B = true) /\
  (ArrayUtil.conjunction
     (ArrayUtil.not_ref_wrapper CppType decay_t as_reference_wrapper <$> Types)
   = true <->
   forall U, U ∈ Types -> as_reference_wrapper (decay_t U) = None) /\
  (ArrayUtil.return_type CppType decay_t as_reference_wrapper common_type
     None Types = Some (T, N) <->
   (forall U, U ∈ Types -> as_reference_wrapper (decay_t U) = None) /\
   common_type Types = Some T /\ N = length Types) /\
  ArrayUtil.return_type CppType decay_t as_reference_wrapper common_type
    (Some d) Types = Some (d, length Types).
Proof.
  assert (H1 : forall l : list bool,
             ArrayUtil.conjunction l = true <-> forall B, B ∈ l -> B = true).
  { intros l. rewrite conjunction_Forall. apply Forall_forall. }
  assert (H2 : ArrayUtil.conjunction
     (ArrayUtil.not_ref_wrapper CppType decay_t as_reference_wrapper <$> Types)
   = true <->
   forall U, U ∈ Types -> as_reference_wrapper (decay_t U) = None).
  { rewrite H1. split.
    - intros H U HU.
      specialize (H _ (list_elem_of_fmap_2 _ _ _ HU)).
      unfold ArrayUtil.not_ref_wrapper, ArrayUtil.negation, ArrayUtil.is_ref_wrapper in H.
      by destruct (as_reference_wrapper (decay_t U)).
    - intros H B (U & -> & HU)%list_elem_of_fmap.
      unfold ArrayUtil.not_ref_wrapper, ArrayUtil.negation, ArrayUtil.is_ref_wrapper.
      by rewrite (H U HU). }
  split; [apply H1|]. split; [exact H2|]. split; [|done].
  unfold ArrayUtil.return_type, ArrayUtil.return_type_helper.
  destruct (ArrayUtil.conjunction _) eqn:E.
  - destruct (common_type Types) as [T'|]; simpl; split.
    + intros [= <- <-]. split; [by apply H2|done].
    + by intros (_ & [= <-] & ->).
    + done.
    + by intros (_ & ? & _).
  - simpl. split; [done|]. intros (H & _). apply H2 in H. congruence.
Qed.

(** ** More on the global context *)

Lemma foldl_push_back {A} (l acc : list A) :
  foldl (fun declarations variable => declarations ++ [variable]) acc l = acc ++ l.
Proof.
  revert acc. induction l as [|a l IH]; intros acc; simpl.
  - by rewrite app_nil_r.
  - rewrite IH. by rewrite <- app_assoc.
Qed.

(** X4: [declarations()] returns the pointers to the magic variables, one
    for each and in their order, in both versions of the global context. *)
Theorem declarations_copies_magicVariables (g : GlobalContext) :
  GlobalContextStatic.declarations g = m_magicVariables g /\
  GlobalContextInstance.declarations g = m_magicVariables g /\
  length (GlobalContextStatic.declarations g) = length (m_magicVariables g).
Proof.
  assert (H : GlobalContextStatic.declarations g = m_magicVariables g)
    by apply foldl_push_back.
  split; [exact H|]. split; [apply foldl_push_back|]. by rewrite H.
Qed.

Lemma index_hit m k d : m !! k = Some (Some d) -> index m k = (Some d, m).
Proof. apply index_lookup. Qed.

Lemma currentThis_hit g w d :
  m_thisPointer g !! m_currentContract g = Some (Some d) ->
  GlobalContextStatic.currentThis g w = (Returned (Some d, g), w).
Proof.
  intros Hm. unfold GlobalContextStatic.currentThis.
  rewrite (index_hit _ _ _ Hm). simpl.
  unfold mbind, M_bind, bind, mret, M_ret, ret. rewrite (index_hit _ _ _ Hm).
  by destruct g.
Qed.

Lemma currentSuper_hit g w d :
  m_superPointer g !! m_currentContract g = Some (Some d) ->
  GlobalContextStatic.currentSuper g w = (Returned (Some d, g), w).
Proof.
  intros Hm. unfold GlobalContextStatic.currentSuper.
  rewrite (index_hit _ _ _ Hm). simpl.
  unfold mbind, M_bind, bind, mret, M_ret, ret. rewrite (index_hit _ _ _ Hm).
  by destruct g.
Qed.

Lemma index_miss m k :
  m !! k = None \/ m !! k = Some None ->
  exists m1, index m k = (None, m1) /\ index m1 k = (None, m1) /\
             forall v, <[k := v]> m1 = <[k := v]> m.
Proof.
  intros [H|H]; unfold index at 1; rewrite H.
  - exists (<[k:=None]> m). split; [done|].
    split; [apply index_lookup, lookup_insert_eq|].
    intros v. apply insert_insert_eq.
  - exists m. split; [done|]. split; [by apply index_lookup|done].
Qed.

Lemma currentThis_null g w :
  m_currentContract g = None ->
  (m_thisPointer g !! None = None \/ m_thisPointer g !! None = Some None) ->
  GlobalContextStatic.currentThis g w = (Undefined, w).
Proof.
  intros Hc Hm.
  destruct (index_miss _ _ Hm) as (m1 & H1 & _).
  unfold GlobalContextStatic.currentThis. rewrite Hc, H1. done.
Qed.

Lemma currentSuper_null g w :
  m_currentContract g = None ->
  (m_superPointer g !! None = None \/ m_superPointer g !! None = Some None) ->
  GlobalContextStatic.currentSuper g w = (Undefined, w).
Proof.
  intros Hc Hm.
  destruct (index_miss _ _ Hm) as (m1 & H1 & _).
  unfold GlobalContextStatic.currentSuper. rewrite Hc, H1. done.
Qed.

Lemma currentThis_miss g w c :
  m_currentContract g = Some c ->
  (m_thisPointer g !! Some c = None \/ m_thisPointer g !! Some c = Some None) ->
  exists t s1,
    GlobalContextStatic.currentThis g w =
      (Returned (Some (next_declaration w),
                 mkGlobalContext (m_magicVariables g) (Some c)
                   (<[Some c := Some (next_declaration w)]> (m_thisPointer g))
                   (m_superPointer g)),
       mkWorld s1
         (<[next_declaration w := mkMagicVariableDeclaration "this" t]>
            (declarations_heap w))
         (S (next_declaration w))).
Proof.
  intros Hc Hm.
  destruct (index_miss _ _ Hm) as (m1 & H1 & H2 & H3).
  destruct (intern_total (ContractType c false) (_provider w)) as (t & s1 & Hi).
  exists t, s1.
  unfold GlobalContextStatic.currentThis. rewrite Hc, H1. simpl.
  unfold mbind, M_bind, bind, mret, M_ret, ret, GlobalContextStatic.TypeProvider.contractType,
    on_provider, make_shared.
  unfold contractType. rewrite Hi. simpl.
  rewrite H2. simpl. rewrite H3.
  rewrite (index_lookup _ _ (Some (next_declaration w))) by apply lookup_insert_eq.
  done.
Qed.

Lemma currentSuper_miss g w c :
  m_currentContract g = Some c ->
  (m_superPointer g !! Some c = None \/ m_superPointer g !! Some c = Some None) ->
  exists t s1,
    GlobalContextStatic.currentSuper g w =
      (Returned (Some (next_declaration w),
                 mkGlobalContext (m_magicVariables g) (Some c)
                   (m_thisPointer g)
                   (<[Some c := Some (next_declaration w)]> (m_superPointer g))),
       mkWorld s1
         (<[next_declaration w := mkMagicVariableDeclaration "super" t]>
            (declarations_heap w))
         (S (next_declaration w))).
Proof.
  intros Hc Hm.
  destruct (index_miss _ _ Hm) as (m1 & H1 & H2 & H3).
  destruct (intern_total (ContractType c true) (_provider w)) as (t & s1 & Hi).
  exists t, s1.
  unfold GlobalContextStatic.currentSuper. rewrite Hc, H1. simpl.
  unfold mbind, M_bind, bind, mret, M_ret, ret, GlobalContextStatic.TypeProvider.contractType,
    on_provider, make_shared.
  unfold contractType. rewrite Hi. simpl.
  rewrite H2. simpl. rewrite H3.
  rewrite (index_lookup _ _ (Some (next_declaration w))) by apply lookup_insert_eq.
  done.
Qed.

Lemma memo_cases (m : gmap (option nat) (option nat)) k :
  (exists d, m !! k = Some (Some d)) \/ (m !! k = None \/ m !! k = Some None).
Proof. destruct (m !! k) as [[d|]|]; eauto. Qed.

Lemma on_provider_declarations {A} (c : M TypeProvider A) w :
  declarations_heap (on_provider c w).2 = declarations_heap w /\
  next_declaration (on_provider c w).2 = next_declaration w.
Proof. unfold on_provider. by destruct (c (_provider w)). Qed.

(** What a call that returns does to the global context and to the
    declarations, in one of three ways. *)
Lemma run_call_cases k g w g' w' :
  run_call k g w = (Returned g', w') ->
  (m_magicVariables g' = m_magicVariables g /\
   m_thisPointer g' = m_thisPointer g /\ m_superPointer g' = m_superPointer g /\
   declarations_heap w' = declarations_heap w /\
   next_declaration w' = next_declaration w) \/
  (exists c t,
     (m_thisPointer g !! Some c = None \/ m_thisPointer g !! Some c = Some None) /\
     m_magicVariables g' = m_magicVariables g /\
     m_currentContract g' = Some c /\
     m_thisPointer g' = <[Some c := Some (next_declaration w)]> (m_thisPointer g) /\
     m_superPointer g' = m_superPointer g /\
     declarations_heap w'
     = <[next_declaration w := mkMagicVariableDeclaration "this" t]>
         (declarations_heap w) /\
     next_declaration w' = S (next_declaration w)) \/
  (exists c t,
     (m_superPointer g !! Some c = None \/ m_superPointer g !! Some c = Some None) /\
     m_magicVariables g' = m_magicVariables g /\
     m_currentContract g' = Some c /\
     m_thisPointer g' = m_thisPointer g /\
     m_superPointer g' = <[Some c := Some (next_declaration w)]> (m_superPointer g) /\
     declarations_heap w'
     = <[next_declaration w := mkMagicVariableDeclaration "super" t]>
         (declarations_heap w) /\
     next_declaration w' = S (next_declaration w)).
Proof.
  destruct k as [c| | |f|]; simpl.
  - intros [= <- <-]. by left.
  - unfold mbind, M_bind, bind.
    destruct (memo_cases (m_thisPointer g) (m_currentContract g)) as [[d Hd]|Hm].
    + rewrite (currentThis_hit _ _ _ Hd). intros [= <- <-]. by left.
    + destruct (m_currentContract g) as [c|] eqn:Hc.
      * destruct (currentThis_miss g w c Hc Hm) as (t & s1 & ->).
        intros [= <- <-]. right. left. by exists c, t.
      * by rewrite (currentThis_null g w Hc Hm).
  - unfold mbind, M_bind, bind.
    destruct (memo_cases (m_superPointer g) (m_currentContract g)) as [[d Hd]|Hm].
    + rewrite (currentSuper_hit _ _ _ Hd). intros [= <- <-]. by left.
    + destruct (m_currentContract g) as [c|] eqn:Hc.
      * destruct (currentSuper_miss g w c Hc Hm) as (t & s1 & ->).
        intros [= <- <-]. right. right. by exists c, t.
      * by rewrite (currentSuper_null g w Hc Hm).
  - intros [= <- <-]. left.
    destruct (on_provider_declarations (call f) w) as [-> ->]. done.
  - intros [= <- <-]. by left.
Qed.

Lemma insert_memo_lookup (m : gmap (option nat) (option nat)) k0 (n : nat) k d :
  (m !! k0 = None \/ m !! k0 = Some None) ->
  <[k0 := Some n]> m !! k = Some (Some d) ->
  (k = k0 /\ d = n) \/ (k <> k0 /\ m !! k = Some (Some d)).
Proof.
  intros Hm. destruct (decide (k0 = k)) as [->|Hne].
  - rewrite lookup_insert_eq. intros [= <-]. by left.
  - rewrite lookup_insert_ne by done. intros H. right. split; [congruence|done].
Qed.

Lemma run_call_keeps k g w g' w' :
  run_call k g w = (Returned g', w') ->
  m_magicVariables g' = m_magicVariables g /\
  (forall c d, m_thisPointer g !! c = Some (Some d) ->
               m_thisPointer g' !! c = Some (Some d)) /\
  (forall c d, m_superPointer g !! c = Some (Some d) ->
               m_superPointer g' !! c = Some (Some d)).
Proof.
  intros H. apply run_call_cases in H
    as [(-> & -> & -> & _)|[(c & t & Hm & -> & _ & -> & -> & _)|(c & t & Hm & -> & _ & -> & -> & _)]];
    (split; [done|]); split; try done.
  - intros k0 d Hd. rewrite lookup_insert_ne; [done|].
    intros <-. destruct Hm as [Hm|Hm]; congruence.
  - intros k0 d Hd. rewrite lookup_insert_ne; [done|].
    intros <-. destruct Hm as [Hm|Hm]; congruence.
Qed.

Lemma heap_insert_fresh (h : gmap nat MagicVariableDeclaration) (n : nat) D0 d D :
  (forall d D, h !! d = Some D -> (d < n)%nat) ->
  h !! d = Some D -> <[n := D0]> h !! d = Some D.
Proof.
  intros Hb Hd. rewrite lookup_insert_ne; [done|].
  intros <-. apply Hb in Hd. lia.
Qed.

Lemma run_call_inv k g w g' w' :
  GlobalContext_inv g w ->
  run_call k g w = (Returned g', w') ->
  GlobalContext_inv g' w' /\
  (forall d D, declarations_heap w !! d = Some D ->
               declarations_heap w' !! d = Some D).
Proof.
  intros [Hb Hv Ht Hs Hti Hsi] H.
  apply run_call_cases in H
    as [(Ev & Et & Es & Eh & En)
       |[(c & t & Hm & Ev & _ & Et & Es & Eh & En)
        |(c & t & Hm & Ev & _ & Et & Es & Eh & En)]].
  - split; [|by rewrite Eh].
    constructor; rewrite ?Ev, ?Et, ?Es, ?Eh, ?En; done.
  - assert (Hfr : forall d D, declarations_heap w !! d = Some D ->
                 declarations_heap w' !! d = Some D).
    { intros d D Hd. rewrite Eh. by eapply heap_insert_fresh. }
    split; [|done].
    constructor; rewrite ?Ev, ?Et, ?Es, ?En.
    + intros d D. rewrite Eh. destruct (decide (d = next_declaration w)) as [->|Hne]; [lia|].
      rewrite lookup_insert_ne by done. intros Hd. apply Hb in Hd. lia.
    + intros d Hd. destruct (Hv d Hd) as (D & HD & Hn). exists D. split; [by apply Hfr|done].
    + intros k0 d Hd. apply insert_memo_lookup in Hd as [[-> ->]|[_ Hd]]; [| |done].
      * exists c, t. split; [done|]. rewrite Eh. apply lookup_insert_eq.
      * destruct (Ht _ _ Hd) as (c' & t' & -> & HD). exists c', t'. split; [done|by apply Hfr].
    + intros k0 d Hd. destruct (Hs _ _ Hd) as (c' & t' & -> & HD).
      exists c', t'. split; [done|by apply Hfr].
    + intros k1 k2 d H1 H2.
      apply insert_memo_lookup in H1 as [[E1 D1]|[Hn1 H1]]; [| |done];
      apply insert_memo_lookup in H2 as [[E2 D2]|[Hn2 H2]]; try done; subst.
      * done.
      * destruct (Ht _ _ H2) as (? & ? & _ & HD). apply Hb in HD. lia.
      * destruct (Ht _ _ H1) as (? & ? & _ & HD). apply Hb in HD. lia.
      * by eapply Hti.
    + done.
  - assert (Hfr : forall d D, declarations_heap w !! d = Some D ->
                 declarations_heap w' !! d = Some D).
    { intros d D Hd. rewrite Eh. by eapply heap_insert_fresh. }
    split; [|done].
    constructor; rewrite ?Ev, ?Et, ?Es, ?En.
    + intros d D. rewrite Eh. destruct (decide (d = next_declaration w)) as [->|Hne]; [lia|].
      rewrite lookup_insert_ne by done. intros Hd. apply Hb in Hd. lia.
    + intros d Hd. destruct (Hv d Hd) as (D & HD & Hn). exists D. split; [by apply Hfr|done].
    + intros k0 d Hd. destruct (Ht _ _ Hd) as (c' & t' & -> & HD).
      exists c', t'. split; [done|by apply Hfr].
    + intros k0 d Hd. apply insert_memo_lookup in Hd as [[-> ->]|[_ Hd]]; [| |done].
      * exists c, t. split; [done|]. rewrite Eh. apply lookup_insert_eq.
      * destruct (Hs _ _ Hd) as (c' & t' & -> & HD). exists c', t'. split; [done|by apply Hfr].
    + done.
    + intros k1 k2 d H1 H2.
      apply insert_memo_lookup in H1 as [[E1 D1]|[Hn1 H1]]; [| |done];
      apply insert_memo_lookup in H2 as [[E2 D2]|[Hn2 H2]]; try done; subst.
      * done.
      * destruct (Hs _ _ H2) as (? & ? & _ & HD). apply Hb in HD. lia.
      * destruct (Hs _ _ H1) as (? & ? & _ & HD). apply Hb in HD. lia.
      * by eapply Hsi.
Qed.

Lemma run_calls_cons k ks g w g' w' :
  run_calls (k :: ks) g w = (Returned g', w') ->
  exists g1 w1, run_call k g w = (Returned g1, w1) /\
                run_calls ks g1 w1 = (Returned g', w').
Proof.
  simpl. unfold mbind, M_bind, bind.
  destruct (run_call k g w) as [[g1| | |] w1]; try done. by exists g1, w1.
Qed.

Lemma run_calls_keeps ks g w g' w' :
  run_calls ks g w = (Returned g', w') ->
  m_magicVariables g' = m_magicVariables g /\
  (forall c d, m_thisPointer g !! c = Some (Some d) ->
               m_thisPointer g' !! c = Some (Some d)) /\
  (forall c d, m_superPointer g !! c = Some (Some d) ->
               m_superPointer g' !! c = Some (Some d)).
Proof.
  revert g w. induction ks as [|k ks IH]; intros g w.
  - by intros [= <- <-].
  - intros (g1 & w1 & H1 & H2)%run_calls_cons.
    destruct (run_call_keeps _ _ _ _ _ H1) as (E1 & T1 & S1).
    destruct (IH _ _ H2) as (E2 & T2 & S2).
    split; [congruence|]. split; eauto.
Qed.

Lemma run_calls_inv ks g w g' w' :
  GlobalContext_inv g w ->
  run_calls ks g w = (Returned g', w') ->
  GlobalContext_inv g' w' /\
  (forall d D, declarations_heap w !! d = Some D ->
               declarations_heap w' !! d = Some D).
Proof.
  revert g w. induction ks as [|k ks IH]; intros g w Hinv.
  - by intros [= <- <-].
  - intros (g1 & w1 & H1 & H2)%run_calls_cons.
    destruct (run_call_inv _ _ _ _ _ Hinv H1) as (Hinv1 & F1).
    destruct (IH _ _ Hinv1 H2) as (Hinv2 & F2).
    split; [done|]. eauto.
Qed.

Lemma Returned_pair_inj {A S} (a a' : A) (s s' : S) :
  (Returned a, s) = (Returned a', s') -> a = a' /\ s = s'.
Proof. by intros [= -> ->]. Qed.

Lemma declarations_at_seq_lookup w (n len i : nat) :
  (i < len)%nat ->
  declarations_at w (seq n len) !! i = Some (declarations_heap w !! (n + i)%nat).
Proof.
  intros Hi. unfold declarations_at.
  by rewrite list_lookup_fmap, lookup_seq_lt.
Qed.

(** The constructor, from a well-formed world: it returns, the magic
    variables are the next 27 addresses, and the declarations there have
    the names of the initialiser list, which do not depend on the world. *)
Lemma new_run :
  exists names : list string,
    length names = 27%nat /\
    Forall (fun nm => nm <> "this" /\ nm <> "super") names /\
    forall w, World_wf w ->
      exists w' ts,
        GlobalContextStatic.new w
        = (Returned (mkGlobalContext (seq (next_declaration w) 27) None ∅ ∅), w') /\
        World_wf w' /\
        next_declaration w' = (next_declaration w + 27)%nat /\
        (forall d, (d < next_declaration w)%nat ->
                   declarations_heap w' !! d = declarations_heap w !! d) /\
        length ts = 27%nat /\
        declarations_at w' (seq (next_declaration w) 27)
        = zip_with (fun nm t => Some (mkMagicVariableDeclaration nm t)) names ts.
Proof.
  unfold GlobalContextStatic.new, GlobalContextStatic.constructMagicVariables.
  match goal with
  | |- context [initializer_list ?L] => exists (L.*1); set (L0 := L)
  end.
  split; [reflexivity|]. split.
  { repeat (constructor; [by split|]). constructor. }
  intros w Hwf.
  assert (HL : Forall (fun E => provider_call E.2) L0) by (unfold L0; provider_calls).
  destruct (initializer_list_run L0 w Hwf HL)
    as (ts & w' & Hrun & HW' & _ & Hnext & Hframe & Hts & Hat).
  exists w', ts. unfold mbind, M_bind, bind. rewrite Hrun.
  split; [reflexivity|]. split; [done|]. split; [exact Hnext|].
  split; [exact Hframe|]. split.
  { apply Forall2_length in Hts. rewrite <- Hts. reflexivity. }
  rewrite zip_with_fmap_l. exact Hat.
Qed.

Lemma new_inv w g w' :
  World_wf w -> GlobalContextStatic.new w = (Returned g, w') ->
  GlobalContext_inv g w' /\ World_wf w' /\
  m_magicVariables g = seq (next_declaration w) 27 /\
  m_currentContract g = None /\ m_thisPointer g = ∅ /\ m_superPointer g = ∅ /\
  next_declaration w' = (next_declaration w + 27)%nat /\
  (forall d D, declarations_heap w !! d = Some D ->
               declarations_heap w' !! d = Some D).
Proof.
  intros Hwf Hnew.
  destruct new_run as (names & Hlen & Hnames & Hrun).
  destruct (Hrun w Hwf) as (w1 & ts & Hnew' & HW' & Hnext & Hframe & Hts & Hat).
  remember (seq (next_declaration w) 27) as vars eqn:Hvars in *.
  rewrite Hnew in Hnew'. injection Hnew' as -> <-.
  cbn [m_magicVariables m_currentContract m_thisPointer m_superPointer].
  split; [|split; [done|]; split; [done|]; split; [done|]; split; [done|];
           split; [done|]; split; [done|]].
  - constructor; cbn [m_magicVariables m_currentContract m_thisPointer m_superPointer].
    + apply HW'.
    + rewrite Hvars. intros d [Hd1 Hd2]%elem_of_seq.
      assert (Hi : (d - next_declaration w < 27)%nat) by lia.
      pose proof (declarations_at_seq_lookup w' (next_declaration w) 27 _ Hi) as Hl.
      rewrite <- Hvars, Hat in Hl. replace (next_declaration w + (d - next_declaration w))%nat
        with d in Hl by lia.
      apply lookup_zip_with_Some in Hl as (nm & t & HD & Hnm & _).
      exists (mkMagicVariableDeclaration nm t). split; [done|]. simpl.
      exact (Forall_lookup_1 _ _ _ _ Hnames Hnm).
    + intros k d Hk. by rewrite lookup_empty in Hk.
    + intros k d Hk. by rewrite lookup_empty in Hk.
    + intros k k' d Hk. by rewrite lookup_empty in Hk.
    + intros k k' d Hk. by rewrite lookup_empty in Hk.
  - intros d D Hd. rewrite Hframe; [done|]. by apply (Wwf_declarations _ Hwf) in Hd.
Qed.

(** X5: from every well-formed world the constructor of the global context
    returns; its 27 magic variables are new declarations at the next 27
    addresses, all different, no declaration that existed is changed or is
    among them, no contract is current and nothing is memoized. *)
Theorem new_allocates_the_magic_variables (w : World) :
  World_wf w ->
  exists g w',
    GlobalContextStatic.new w = (Returned g, w') /\
    GlobalContextStatic.declarations g = seq (next_declaration w) 27 /\
    NoDup (GlobalContextStatic.declarations g) /\
    (forall d, d ∈ GlobalContextStatic.declarations g ->
               declarations_heap w !! d = None /\
               is_Some (declarations_heap w' !! d)) /\
    (forall d D, declarations_heap w !! d = Some D ->
                 declarations_heap w' !! d = Some D) /\
    next_declaration w' = (next_declaration w + 27)%nat /\
    m_currentContract g = None /\ m_thisPointer g = ∅ /\ m_superPointer g = ∅ /\
    World_wf w'.
Proof.
  intros Hwf.
  destruct new_run as (names & _ & _ & Hrun).
  destruct (Hrun w Hwf) as (w' & ts & Hnew & _).
  destruct (new_inv _ _ _ Hwf Hnew) as (Hinv & HW' & Hv & Hc & Ht & Hs & Hn & Hf).
  eexists _, w'. split; [exact Hnew|].
  assert (Hd : GlobalContextStatic.declarations
                 (mkGlobalContext (seq (next_declaration w) 27) None ∅ ∅)
               = seq (next_declaration w) 27) by apply foldl_push_back.
  rewrite Hd. split; [done|]. split; [apply NoDup_seq|]. split.
  { intros d Hd'. split.
    - apply elem_of_seq in Hd' as [Hd1 _].
      destruct (declarations_heap w !! d) as [D|] eqn:E; [|done].
      apply (Wwf_declarations _ Hwf) in E. lia.
    - destruct (inv_variables _ _ Hinv d Hd') as (D & HD & _). by exists D. }
  done.
Qed.

(** X6: a second global context constructed after a first one shares no
    declaration with it and leaves the declarations of the first as they
    are; its declarations have the names of those of the first, in the same
    order. *)
Theorem second_global_context_is_disjoint (w w1 w2 : World) (g1 g2 : GlobalContext) :
  World_wf w ->
  GlobalContextStatic.new w = (Returned g1, w1) ->
  GlobalContextStatic.new w1 = (Returned g2, w2) ->
  (forall d, d ∈ GlobalContextStatic.declarations g1 ->
             d ∉ GlobalContextStatic.declarations g2) /\
  declarations_at w2 (GlobalContextStatic.declarations g1)
  = declarations_at w1 (GlobalContextStatic.declarations g1) /\
  ((fun D : option MagicVariableDeclaration => name <$> D)
     <$> declarations_at w2 (GlobalContextStatic.declarations g2))
  = ((fun D : option MagicVariableDeclaration => name <$> D)
       <$> declarations_at w1 (GlobalContextStatic.declarations g1)).
Proof.
  intros Hwf H1 H2.
  destruct new_run as (names & Hlen & _ & Hrun).
  destruct (Hrun w Hwf) as (w1' & ts1 & H1' & HW1 & Hn1 & Hf1 & Hl1 & Hat1).
  rewrite H1 in H1'. apply Returned_pair_inj in H1' as [-> <-].
  destruct (Hrun w1 HW1) as (w2' & ts2 & H2' & HW2 & Hn2 & Hf2 & Hl2 & Hat2).
  rewrite H2 in H2'. apply Returned_pair_inj in H2' as [-> <-].
  assert (Hd : forall n, GlobalContextStatic.declarations
                 (mkGlobalContext (seq n 27) None ∅ ∅) = seq n 27)
    by (intros n; apply foldl_push_back).
  rewrite !Hd. split; [|split].
  - intros d [? ?]%elem_of_seq [? ?]%elem_of_seq. lia.
  - unfold declarations_at. apply list_fmap_ext.
    intros i d Hd'%lookup_seq. apply Hf2. lia.
  - rewrite Hat1, Hat2. clear -Hlen Hl1 Hl2.
    revert ts1 ts2 Hl1 Hl2. rewrite <- Hlen. clear Hlen.
    induction names as [|nm names IH]; intros [|t1 ts1] [|t2 ts2]; simpl; try done.
    intros [= Hl1] [= Hl2]. f_equal. by apply IH.
Qed.

Lemma currentThis_returns_memo g w d g1 w1 :
  GlobalContextStatic.currentThis g w = (Returned (Some d, g1), w1) ->
  m_thisPointer g1 !! m_currentContract g = Some (Some d).
Proof.
  destruct (memo_cases (m_thisPointer g) (m_currentContract g)) as [[d0 Hd]|Hm].
  - rewrite (currentThis_hit _ _ _ Hd). intros H.
    apply Returned_pair_inj in H as [[= <- <-] _]. done.
  - destruct (m_currentContract g) as [c|] eqn:Hc.
    + destruct (currentThis_miss g w c Hc Hm) as (t & s1 & ->). intros H.
      apply Returned_pair_inj in H as [[= <- <-] _]. apply lookup_insert_eq.
    + by rewrite (currentThis_null g w Hc Hm).
Qed.

Lemma currentSuper_returns_memo g w d g1 w1 :
  GlobalContextStatic.currentSuper g w = (Returned (Some d, g1), w1) ->
  m_superPointer g1 !! m_currentContract g = Some (Some d).
Proof.
  destruct (memo_cases (m_superPointer g) (m_currentContract g)) as [[d0 Hd]|Hm].
  - rewrite (currentSuper_hit _ _ _ Hd). intros H.
    apply Returned_pair_inj in H as [[= <- <-] _]. done.
  - destruct (m_currentContract g) as [c|] eqn:Hc.
    + destruct (currentSuper_miss g w c Hc Hm) as (t & s1 & ->). intros H.
      apply Returned_pair_inj in H as [[= <- <-] _]. apply lookup_insert_eq.
    + by rewrite (currentSuper_null g w Hc Hm).
Qed.

(** X7: the pointer [currentThis()] has returned for a contract is the one
    it returns for that contract ever after, without creating anything,
    whatever is called in between: [setCurrentContract] for other contracts,
    [currentThis], [currentSuper], factory functions of the provider or its
    [reset]; and so for [currentSuper()]. *)
Theorem memoized_pointers_are_kept
  (ks : list GlobalContextCall) (g g1 g' : GlobalContext) (w w1 w' : World)
  (c d : nat) :
  run_calls ks g1 w1 = (Returned g', w') ->
  (GlobalContextStatic.currentThis (GlobalContextStatic.setCurrentContract c g) w
   = (Returned (Some d, g1), w1) ->
   GlobalContextStatic.currentThis (GlobalContextStatic.setCurrentContract c g') w'
   = (Returned (Some d, GlobalContextStatic.setCurrentContract c g'), w')) /\
  (GlobalContextStatic.currentSuper (GlobalContextStatic.setCurrentContract c g) w
   = (Returned (Some d, g1), w1) ->
   GlobalContextStatic.currentSuper (GlobalContextStatic.setCurrentContract c g') w'
   = (Returned (Some d, GlobalContextStatic.setCurrentContract c g'), w')).
Proof.
  intros Hrun. destruct (run_calls_keeps _ _ _ _ _ Hrun) as (_ & Ht & Hs).
  split; intros H.
  - apply currentThis_returns_memo in H. apply currentThis_hit. simpl in *. by apply Ht.
  - apply currentSuper_returns_memo in H. apply currentSuper_hit. simpl in *. by apply Hs.
Qed.

(** X8: the declarations of the magic variables are read-only: after any
    sequence of calls on a global context, [declarations()] returns the
    pointers it returned after construction, and the declarations they point
    to are the same; no call changes or destroys a declaration that
    exists. *)
Theorem magic_variables_are_read_only
  (ks : list GlobalContextCall) (g g' : GlobalContext) (w0 w w' : World) :
  World_wf w0 ->
  GlobalContextStatic.new w0 = (Returned g, w) ->
  run_calls ks g w = (Returned g', w') ->
  GlobalContextStatic.declarations g' = GlobalContextStatic.declarations g /\
  declarations_at w' (GlobalContextStatic.declarations g')
  = declarations_at w (GlobalContextStatic.declarations g) /\
  Forall (fun D => is_Some D) (declarations_at w' (GlobalContextStatic.declarations g')) /\
  (forall d D, declarations_heap w !! d = Some D ->
               declarations_heap w' !! d = Some D).
Proof.
  intros Hwf Hnew Hrun.
  destruct (new_inv _ _ _ Hwf Hnew) as (Hinv & _).
  destruct (run_calls_inv _ _ _ _ _ Hinv Hrun) as (Hinv' & Hframe).
  destruct (run_calls_keeps _ _ _ _ _ Hrun) as (Hv & _).
  unfold GlobalContextStatic.declarations. rewrite !foldl_push_back, Hv. simpl.
  split; [done|].
  assert (Hsame : declarations_at w' (m_magicVariables g)
                  = declarations_at w (m_magicVariables g)).
  { unfold declarations_at. apply list_fmap_ext. intros i d Hd.
    destruct (inv_variables _ _ Hinv d (list_elem_of_lookup_2 _ _ _ Hd)) as (D & HD & _).
    rewrite HD. by apply Hframe. }
  split; [exact Hsame|]. split; [|exact Hframe].
  rewrite Hsame. unfold declarations_at. apply Forall_fmap, Forall_forall.
  intros d Hd. destruct (inv_variables _ _ Hinv d Hd) as (D & HD & _).
  by exists D.
Qed.

(** X9: after any sequence of calls on a global context, every declaration
    memoized for [this] is named [this], is memoized for a contract and for
    that one only, is none of the magic variables and is not memoized for
    [super]; and every declaration memoized for [super] is named [super],
    is memoized for a contract and for that one only, is none of the magic
    variables and is not memoized for [this]. *)
Theorem memoized_declarations_are_distinct
  (ks : list GlobalContextCall) (g g' : GlobalContext) (w0 w w' : World) :
  World_wf w0 ->
  GlobalContextStatic.new w0 = (Returned g, w) ->
  run_calls ks g w = (Returned g', w') ->
  (forall k d, m_thisPointer g' !! k = Some (Some d) ->
     (exists c t, k = Some c /\
        declarations_heap w' !! d = Some (mkMagicVariableDeclaration "this" t)) /\
     d ∉ GlobalContextStatic.declarations g' /\
     (forall k2, m_thisPointer g' !! k2 = Some (Some d) -> k2 = k) /\
     (forall k2, m_superPointer g' !! k2 <> Some (Some d))) /\
  (forall k d, m_superPointer g' !! k = Some (Some d) ->
     (exists c t, k = Some c /\
        declarations_heap w' !! d = Some (mkMagicVariableDeclaration "super" t)) /\
     d ∉ GlobalContextStatic.declarations g' /\
     (forall k2, m_superPointer g' !! k2 = Some (Some d) -> k2 = k) /\
     (forall k2, m_thisPointer g' !! k2 <> Some (Some d))).
Proof.
  intros Hwf Hnew Hrun.
  destruct (new_inv _ _ _ Hwf Hnew) as (Hinv & _).
  destruct (run_calls_inv _ _ _ _ _ Hinv Hrun) as ([Hb Hv Ht Hs Hti Hsi] & _).
  unfold GlobalContextStatic.declarations. rewrite foldl_push_back. simpl.
  split.
  - intros k d Hk. destruct (Ht _ _ Hk) as (c & t & -> & HD).
    split; [by exists c, t|]. split.
    { intros Hin. destruct (Hv _ Hin) as (D & HD2 & Hn & _). rewrite HD in HD2.
      injection HD2 as <-. done. }
    split.
    + intros k2 H2. by eapply Hti.
    + intros k2 H2. destruct (Hs _ _ H2) as (c' & t' & _ & HD'). congruence.
  - intros k d Hk. destruct (Hs _ _ Hk) as (c & t & -> & HD).
    split; [by exists c, t|]. split.
    { intros Hin. destruct (Hv _ Hin) as (D & HD2 & _ & Hn). rewrite HD in HD2.
      injection HD2 as <-. done. }
    split.
    + intros k2 H2. by eapply Hsi.
    + intros k2 H2. destruct (Ht _ _ H2) as (c' & t' & _ & HD'). congruence.
Qed.

Lemma run_call_current k g w g' w' :
  run_call k g w = (Returned g', w') ->
  (forall c, k = CallSetCurrentContract c -> m_currentContract g' = Some c) /\
  (is_Some (m_currentContract g) -> is_Some (m_currentContract g')).
Proof.
  destruct k as [c| | |f|]; simpl.
  - intros [= <- <-]. split; [by intros ? [= ->]|]. by eexists.
  - unfold mbind, M_bind, bind. intros H. split; [done|]. revert H.
    destruct (memo_cases (m_thisPointer g) (m_currentContract g)) as [[d Hd]|Hm].
    + rewrite (currentThis_hit _ _ _ Hd). by intros [= <- <-].
    + destruct (m_currentContract g) as [c|] eqn:Hc.
      * destruct (currentThis_miss g w c Hc Hm) as (t & s1 & ->).
        intros [= <- <-] _. by eexists.
      * by rewrite (currentThis_null g w Hc Hm).
  - unfold mbind, M_bind, bind. intros H. split; [done|]. revert H.
    destruct (memo_cases (m_superPointer g) (m_currentContract g)) as [[d Hd]|Hm].
    + rewrite (currentSuper_hit _ _ _ Hd). by intros [= <- <-].
    + destruct (m_currentContract g) as [c|] eqn:Hc.
      * destruct (currentSuper_miss g w c Hc Hm) as (t & s1 & ->).
        intros [= <- <-] _. by eexists.
      * by rewrite (currentSuper_null g w Hc Hm).
  - by intros [= <- <-].
  - by intros [= <- <-].
Qed.

Lemma run_calls_current ks g w g' w' :
  run_calls ks g w = (Returned g', w') ->
  is_Some (m_currentContract g) -> is_Some (m_currentContract g').
Proof.
  revert g w. induction ks as [|k ks IH]; intros g w.
  - by intros [= <- <-].
  - intros (g1 & w1 & H1 & H2)%run_calls_cons Hs.
    eapply IH; [exact H2|]. by apply (run_call_current _ _ _ _ _ H1).
Qed.

(** X10: as long as no contract is current, [currentThis()] and
    [currentSuper()] dereference the null pointer [m_currentContract],
    whatever was called on the global context since its construction, and
    they create nothing before they do; a contract that was made current
    can be replaced by another but not be taken away. *)
Theorem no_current_contract_is_undefined
  (ks : list GlobalContextCall) (g g' : GlobalContext) (w0 w w' : World) :
  World_wf w0 ->
  GlobalContextStatic.new w0 = (Returned g, w) ->
  run_calls ks g w = (Returned g', w') ->
  m_currentContract g' = None ->
  GlobalContextStatic.currentThis g' w' = (Undefined, w') /\
  GlobalContextStatic.currentSuper g' w' = (Undefined, w') /\
  Forall (fun k => forall c, k <> CallSetCurrentContract c) ks.
Proof.
  intros Hwf Hnew Hrun Hc.
  destruct (new_inv _ _ _ Hwf Hnew) as (Hinv & _ & _ & Hc0 & _).
  destruct (run_calls_inv _ _ _ _ _ Hinv Hrun) as ([Hb Hv Ht Hs Hti Hsi] & _).
  split; [|split].
  - apply currentThis_null; [done|].
    destruct (memo_cases (m_thisPointer g') None) as [[d Hd]|Hm]; [|done].
    by destruct (Ht _ _ Hd) as (? & ? & ? & _).
  - apply currentSuper_null; [done|].
    destruct (memo_cases (m_superPointer g') None) as [[d Hd]|Hm]; [|done].
    by destruct (Hs _ _ Hd) as (? & ? & ? & _).
  - clear -Hrun Hc. revert g w Hrun.
    induction ks as [|k ks IH]; intros g w Hrun; [constructor|].
    apply run_calls_cons in Hrun as (g1 & w1 & H1 & H2).
    constructor; [|by eapply IH].
    intros c ->.
    destruct (run_call_current _ _ _ _ _ H1) as [Hset _].
    destruct (run_calls_current _ _ _ _ _ H2) as [c' Hc'].
    + rewrite (Hset c eq_refl). by eexists.
    + congruence.
Qed.

(** Runs on the initial world, for the instances below. *)
Lemma runs_from_new (ks : list GlobalContextCall) (P : GlobalContext -> bool) :
  match GlobalContextStatic.new World_init with
  | (Returned g, w) =>
      match run_calls ks g w with
      | (Returned g', _) => P g'
      | _ => false
      end
  | _ => false
  end = true ->
  exists g w g' w',
    GlobalContextStatic.new World_init = (Returned g, w) /\
    run_calls ks g w = (Returned g', w') /\ P g' = true.
Proof.
  intros Ho.
  destruct (GlobalContextStatic.new World_init) as [[g| | |] w] eqn:E1;
    [|discriminate Ho..].
  destruct (run_calls ks g w) as [[g'| | |] w'] eqn:E2; [|discriminate Ho..].
  exists g, w, g', w'. split; [reflexivity|]. split; [exact E2|exact Ho].
Qed.

Lemma new_twice_returns :
  exists g1 w1 g2 w2,
    GlobalContextStatic.new World_init = (Returned g1, w1) /\
    GlobalContextStatic.new w1 = (Returned g2, w2).
Proof.
  assert (Ho : returns (GlobalContextStatic.new
                          (GlobalContextStatic.new World_init).2).1 = true)
    by (vm_compute; reflexivity).
  destruct new_init_returns as (g1 & w1 & E1).
  rewrite E1 in Ho. cbn [snd] in Ho.
  destruct (GlobalContextStatic.new w1) as [[g2| | |] w2] eqn:E2;
    [|discriminate Ho..].
  exists g1, w1, g2, w2. split; [exact E1|exact E2].
Qed.

Lemma currentThis_then_calls_return :
  exists d g1 w1 g' w',
    GlobalContextStatic.currentThis
      (GlobalContextStatic.setCurrentContract 7 (mkGlobalContext [] None ∅ ∅))
      World_init = (Returned (Some d, g1), w1) /\
    run_calls [CallSetCurrentContract 8; CallCurrentThis; CallReset;
               CallCurrentSuper] g1 w1 = (Returned g', w').
Proof.
  assert (Ho : match GlobalContextStatic.currentThis
                       (GlobalContextStatic.setCurrentContract 7
                          (mkGlobalContext [] None ∅ ∅)) World_init with
               | (Returned (Some d, g1), w1) =>
                   returns (run_calls [CallSetCurrentContract 8; CallCurrentThis;
                                       CallReset; CallCurrentSuper] g1 w1).1
               | _ => false
               end = true) by (vm_compute; reflexivity).
  destruct (GlobalContextStatic.currentThis _ World_init)
    as [[[[d|] g1]| | |] w1] eqn:E1; [|discriminate Ho..].
  destruct (run_calls _ g1 w1) as [[g'| | |] w'] eqn:E2; [|discriminate Ho..].
  exists d, g1, w1, g', w'. split; [reflexivity|exact E2].
Qed.

Lemma calls_after_new_return :
  exists g w g' w',
    GlobalContextStatic.new World_init = (Returned g, w) /\
    run_calls [CallSetCurrentContract 7; CallCurrentThis; CallReset;
               CallCurrentSuper] g w = (Returned g', w') /\
    bool_decide (m_thisPointer g' !! Some 7%nat = Some (Some 27%nat))
    && bool_decide (m_superPointer g' !! Some 7%nat = Some (Some 28%nat)) = true.
Proof. apply (runs_from_new _ (fun g' => _ && _)). vm_compute. reflexivity. Qed.

Lemma this_after_new_returns :
  exists g w g' w',
    GlobalContextStatic.new World_init = (Returned g, w) /\
    run_calls [CallSetCurrentContract 7; CallCurrentThis] g w = (Returned g', w') /\
    bool_decide (m_thisPointer g' !! Some 7%nat = Some (Some 27%nat)) = true.
Proof. apply (runs_from_new _ (fun g' => bool_decide _)). vm_compute. reflexivity. Qed.

Lemma calls_without_contract_return :
  exists g w g' w',
    GlobalContextStatic.new World_init = (Returned g, w) /\
    run_calls [CallFactory (call_tupleType [m_boolType; m_uintM 31]); CallReset] g w
    = (Returned g', w') /\
    bool_decide (m_currentContract g' = None) = true.
Proof. apply (runs_from_new _ (fun g' => bool_decide _)). vm_compute. reflexivity. Qed.

Lemma new_allocates_the_magic_variables_witness :
  exists g w',
    GlobalContextStatic.new World_init = (Returned g, w') /\
    GlobalContextStatic.declarations g = seq 0 27 /\
    next_declaration w' = 27%nat.
Proof.
  destruct (new_allocates_the_magic_variables World_init World_wf_init)
    as (g & w' & H1 & H2 & _ & _ & _ & H3 & _).
  exists g, w'. split; [exact H1|]. split; [exact H2|exact H3].
Defined.

Lemma second_global_context_is_disjoint_witness :
  exists g1 w1 g2 w2,
    GlobalContextStatic.new World_init = (Returned g1, w1) /\
    GlobalContextStatic.new w1 = (Returned g2, w2) /\
    forall d, d ∈ GlobalContextStatic.declarations g1 ->
              d ∉ GlobalContextStatic.declarations g2.
Proof.
  destruct new_twice_returns as (g1 & w1 & g2 & w2 & E1 & E2).
  exists g1, w1, g2, w2. split; [exact E1|]. split; [exact E2|].
  exact (proj1 (second_global_context_is_disjoint
                  World_init w1 w2 g1 g2 World_wf_init E1 E2)).
Defined.

Lemma memoized_pointers_are_kept_witness :
  exists d g1 w1 g' w',
    GlobalContextStatic.currentThis
      (GlobalContextStatic.setCurrentContract 7 (mkGlobalContext [] None ∅ ∅))
      World_init = (Returned (Some d, g1), w1) /\
    run_calls [CallSetCurrentContract 8; CallCurrentThis; CallReset;
               CallCurrentSuper] g1 w1 = (Returned g', w') /\
    GlobalContextStatic.currentThis (GlobalContextStatic.setCurrentContract 7 g') w'
    = (Returned (Some d, GlobalContextStatic.setCurrentContract 7 g'), w').
Proof.
  destruct currentThis_then_calls_return as (d & g1 & w1 & g' & w' & E1 & E2).
  exists d, g1, w1, g', w'. split; [exact E1|]. split; [exact E2|].
  exact (proj1 (memoized_pointers_are_kept _ _ g1 g' World_init w1 w' 7 d E2) E1).
Defined.

Lemma magic_variables_are_read_only_witness :
  exists g w g' w',
    GlobalContextStatic.new World_init = (Returned g, w) /\
    run_calls [CallSetCurrentContract 7; CallCurrentThis; CallReset;
               CallCurrentSuper] g w = (Returned g', w') /\
    declarations_at w' (GlobalContextStatic.declarations g')
    = declarations_at w (GlobalContextStatic.declarations g).
Proof.
  destruct calls_after_new_return as (g & w & g' & w' & E1 & E2 & _).
  exists g, w, g', w'. split; [exact E1|]. split; [exact E2|].
  exact (proj1 (proj2 (magic_variables_are_read_only
                         _ g g' World_init w w' World_wf_init E1 E2))).
Defined.

Lemma memoized_declarations_are_distinct_witness :
  exists g w g' w',
    GlobalContextStatic.new World_init = (Returned g, w) /\
    run_calls [CallSetCurrentContract 7; CallCurrentThis] g w = (Returned g', w') /\
    m_thisPointer g' !! Some 7%nat = Some (Some 27%nat) /\
    (exists c t, Some 7%nat = Some c /\
       declarations_heap w' !! 27%nat = Some (mkMagicVariableDeclaration "this" t)) /\
    27%nat ∉ GlobalContextStatic.declarations g' /\
    (forall k2, m_superPointer g' !! k2 <> Some (Some 27%nat)).
Proof.
  destruct this_after_new_returns as (g & w & g' & w' & E1 & E2 & Hb).
  apply bool_decide_eq_true_1 in Hb.
  exists g, w, g', w'. split; [exact E1|]. split; [exact E2|]. split; [exact Hb|].
  destruct (proj1 (memoized_declarations_are_distinct
                     _ g g' World_init w w' World_wf_init E1 E2) _ _ Hb)
    as (H1 & H2 & _ & H3).
  split; [exact H1|]. split; [exact H2|exact H3].
Defined.

Lemma currentThis_currentSuper_memoized_witness :
  exists g w d g1 w1 d' g2 w2,
    GlobalContextStatic.new World_init = (Returned g, w) /\
    GlobalContextStatic.currentThis (GlobalContextStatic.setCurrentContract 7 g) w
    = (Returned (Some d, g1), w1) /\
    GlobalContextStatic.currentThis g1 w1 = (Returned (Some d, g1), w1) /\
    GlobalContextStatic.currentSuper (GlobalContextStatic.setCurrentContract 7 g1) w1
    = (Returned (Some d', g2), w2) /\
    GlobalContextStatic.currentSuper g2 w2 = (Returned (Some d', g2), w2) /\
    GlobalContextStatic.currentThis (GlobalContextStatic.setCurrentContract 7 g2) w2
    = (Returned (Some d, GlobalContextStatic.setCurrentContract 7 g2), w2).
Proof.
  destruct new_init_returns as (g & w & E).
  destruct (new_inv _ _ _ World_wf_init E) as (_ & Hwf & _ & _ & Ht & Hs & _).
  assert (Hthis : m_thisPointer g !! Some 7%nat = None)
    by (rewrite Ht; apply lookup_empty).
  assert (Hsuper : m_superPointer g !! Some 7%nat = None)
    by (rewrite Hs; apply lookup_empty).
  destruct (proj1 (currentThis_currentSuper_memoized g 7 w Hwf) (or_introl Hthis))
    as (d & t & g1 & w1 & H1 & _ & _ & _ & H2 & _ & Hwf1 & Hs1).
  rewrite <- Hs1 in Hsuper.
  destruct (proj1 (proj2 (currentThis_currentSuper_memoized g1 7 w1 Hwf1))
              (or_introl Hsuper))
    as (d' & t' & g2 & w2 & H3 & _ & _ & _ & H4 & _ & Hwf2 & Ht2).
  exists g, w, d, g1, w1, d', g2, w2.
  split; [exact E|]. split; [exact H1|]. split; [exact H2|].
  split; [exact H3|]. split; [exact H4|].
  apply (proj1 (proj2 (proj2 (currentThis_currentSuper_memoized g2 7 w2 Hwf2)))).
  rewrite Ht2. exact (currentThis_returns_memo _ _ _ _ _ H1).
Defined.

Lemma no_current_contract_is_undefined_witness :
  exists g w g' w',
    GlobalContextStatic.new World_init = (Returned g, w) /\
    run_calls [CallFactory (call_tupleType [m_boolType; m_uintM 31]); CallReset] g w
    = (Returned g', w') /\
    m_currentContract g' = None /\
    GlobalContextStatic.currentThis g' w' = (Undefined, w').
Proof.
  destruct calls_without_contract_return as (g & w & g' & w' & E1 & E2 & Hb).
  apply bool_decide_eq_true_1 in Hb.
  exists g, w, g', w'. split; [exact E1|]. split; [exact E2|]. split; [exact Hb|].
  exact (proj1 (no_current_contract_is_undefined
                  _ g g' World_init w w' World_wf_init E1 E2 Hb)).
Defined.
